(** * IFTS data automation: a model of [automation/collect-data.js]

    The script collects reference statistics from three sources (CDC,
    Missouri DOC, Bureau of Justice Statistics), writes one JSON file per
    source and, on a full run, a combined summary and a small statistics
    file for the website.

    The model is a shallow embedding.  JavaScript values are the terms of
    [jsval]; an object is the ordered list of its properties.  An [async]
    function is a computation in the monad [M]: it reads and updates the
    [world] (the files of the output directory and the number of clock
    reads), emits [event]s (console lines, HTTP requests, file-system
    calls), and completes normally or throws.  The platform the script
    runs on (its directory, the clock, the network, cheerio, the file
    system) is an [env] of oracles.

    The script awaits every promise at once and runs on one thread, so
    [await e] is sequencing in [M].  A file holds the value given to
    [JSON.stringify], not its text.  Local objects that the script
    mutates ([data.statistics.push], [data.resources = ...]) are threaded
    through as values: none of them is aliased. *)

From Stdlib Require Import ZArith.
From stdpp Require Import gmap strings list fin_maps.

(** ** JavaScript values *)

Module Js.

#[local] Set Warnings "-register-all".

Inductive jsval : Type :=
| JNull
| JStr (s : string)
| JNum (n : Z)
| JArr (items : list jsval)
| JObj (props : list (string * jsval)).

(** An object literal: its properties in insertion order. *)
Abbreviation object := (list (string * jsval)).

(** What a [catch] clause receives: [err.code] and [err.message]. *)
Record js_error : Type := mkError { code : string; message : string }.

(** [o[k]]: the value of property [k], if [o] has it. *)
Fixpoint get_prop (k : string) (o : object) : option jsval :=
  match o with
  | [] => None
  | (k', v) :: o' => if String.eqb k' k then Some v else get_prop k o'
  end.

(** [o[k] = v]: an existing property keeps its place, a new one goes last. *)
Fixpoint set_prop (k : string) (v : jsval) (o : object) : object :=
  match o with
  | [] => [(k, v)]
  | (k', v') :: o' =>
      if String.eqb k' k then (k, v) :: o' else (k', v') :: set_prop k v o'
  end.

(** The object without its property [k] (used to compare up to a timestamp). *)
Definition without_prop (k : string) (o : object) : object :=
  List.filter (fun kv => negb (String.eqb (fst kv) k)) o.

(** [JSON.stringify] drops nothing from these values; comparing two values
    up to a property means comparing them once that property is removed. *)
Definition erase (k : string) (v : jsval) : jsval :=
  match v with
  | JObj o => JObj (without_prop k o)
  | _ => v
  end.

(** A string property that is present and not the empty string. *)
Definition nonempty_string_prop (k : string) (o : object) : bool :=
  match get_prop k o with
  | Some (JStr s) => negb (String.eqb s "")
  | _ => false
  end.

(** [args.includes(flag)] on an array of strings. *)
Fixpoint includes (args : list string) (flag : string) : bool :=
  match args with
  | [] => false
  | a :: args' => String.eqb a flag || includes args' flag
  end.

End Js.
Export Js.

(** ** The platform and the effect monad *)

Inductive event : Type :=
| ConsoleLog (line : string)
| ConsoleError (line : string)
| ConsoleErrorObject (e : js_error)
| HttpGet (url user_agent : string) (timeout_ms : Z)
| Mkdir (path : string)
| WriteFile (path : string) (content : jsval).

(** The oracles of one run.  Every URL is requested and every path is
    written at most once in a run, so an oracle indexed by URL or path
    covers every behaviour of the network and of the file system. *)
Record env : Type := mkEnv {
  dirname : string;                          (* __dirname *)
  date_now : nat -> string;                  (* the n-th new Date().toISOString() *)
  net_get : string -> js_error + string;     (* rejection, or response.data *)
  html_parse : string -> js_error + string;  (* throw, or the document (its body text) *)
  mkdir_error : string -> option js_error;   (* None: the directory exists afterwards *)
  write_error : string -> option js_error;   (* None: the file has been written *)
  write_truncates : string -> bool           (* a refused write had opened the file *)
}.

(** [files] maps a path to the value whose JSON text the file holds in
    full (the value handed to [JSON.stringify (_, null, 2)]); a path whose
    file is missing, empty or cut short is not in the map. *)
Record world : Type := mkWorld {
  files : gmap string jsval;
  clock_reads : nat
}.

Inductive completion (A : Type) : Type :=
| Normal (a : A)
| Throw (e : js_error).
Arguments Normal {A} a.
Arguments Throw {A} e.

Record outcome (A : Type) : Type := mkOutcome {
  result : completion A;
  final : world;
  events : list event
}.
Arguments mkOutcome {A} _ _ _.
Arguments result {A} _.
Arguments final {A} _.
Arguments events {A} _.

Definition M (A : Type) : Type := world -> outcome A.

Definition ret {A} (a : A) : M A := fun w => mkOutcome (Normal a) w [].

Definition throw {A} (e : js_error) : M A := fun w => mkOutcome (Throw e) w [].

Definition bind {A B} (m : M A) (f : A -> M B) : M B := fun w =>
  match m w with
  | mkOutcome (Normal a) w1 evs1 =>
      match f a w1 with
      | mkOutcome r w2 evs2 => mkOutcome r w2 (evs1 ++ evs2)
      end
  | mkOutcome (Throw e) w1 evs1 => mkOutcome (Throw e) w1 evs1
  end.

(** [try { m } catch (err) { handler err }] *)
Definition try_catch {A} (m : M A) (handler : js_error -> M A) : M A := fun w =>
  match m w with
  | mkOutcome (Normal a) w1 evs1 => mkOutcome (Normal a) w1 evs1
  | mkOutcome (Throw e) w1 evs1 =>
      match handler e w1 with
      | mkOutcome r w2 evs2 => mkOutcome r w2 (evs1 ++ evs2)
      end
  end.

Definition emit (ev : event) : M unit := fun w => mkOutcome (Normal tt) w [ev].

#[global] Instance M_ret : MRet M := @ret.
#[global] Instance M_bind : MBind M := fun A B f m => bind m f.

Definition LF : string := String (Ascii.ascii_of_nat 10) EmptyString.

(** [path.join] (POSIX) on a normalized directory and a plain file name,
    where it is this concatenation.  The script joins [__dirname], 'data'
    and its five literal file names only; what [path.join] does to a name
    with separators or dots in it is not modelled. *)
Definition path_join (dir name : string) : string := dir +:+ "/" +:+ name.

Definition TypeError (msg : string) : js_error := mkError "" msg.

(** ** The script *)

Section Script.

Variable E : env.

(** *** Primitives of the platform *)

Definition console_log (line : string) : M unit := emit (ConsoleLog line).

(** [console.error(a, b)] prints its arguments separated by a space. *)
Definition console_error (a b : string) : M unit :=
  emit (ConsoleError (a +:+ " " +:+ b)).

(** [console.error(err)], the handler of [main().catch]. *)
Definition console_error_object (e : js_error) : M unit :=
  emit (ConsoleErrorObject e).

(** [new Date().toISOString()] *)
Definition Date_toISOString : M string := fun w =>
  mkOutcome (Normal (date_now E (clock_reads w)))
            (mkWorld (files w) (S (clock_reads w))) [].

(** [axios.get(url, { headers: { 'User-Agent': ua }, timeout })]; the value
    is [response.data]. *)
Definition axios_get (url ua : string) (timeout : Z) : M string := fun w =>
  match net_get E url with
  | inl e => mkOutcome (Throw e) w [HttpGet url ua timeout]
  | inr d => mkOutcome (Normal d) w [HttpGet url ua timeout]
  end.

(** [cheerio.load(html)] *)
Definition cheerio_load (html : string) : M string := fun w =>
  match html_parse E html with
  | inl e => mkOutcome (Throw e) w []
  | inr d => mkOutcome (Normal d) w []
  end.

(** [fs.mkdir(path, { recursive: true })] *)
Definition fs_mkdir (path : string) : M unit := fun w =>
  match mkdir_error E path with
  | Some e => mkOutcome (Throw e) w [Mkdir path]
  | None => mkOutcome (Normal tt) w [Mkdir path]
  end.

(** [fs.writeFile(path, JSON.stringify(data, null, 2))] writes onto the
    file itself, opened with flag 'w'.  An accepted write replaces the
    document.  A refused one leaves the file as it was when the refusal
    comes at the opening (EACCES, EISDIR, ...); when it comes later (ENOSPC,
    EIO, ...) the file has been truncated and holds no document any more. *)
Definition fs_writeFile (path : string) (data : jsval) : M unit := fun w =>
  match write_error E path with
  | Some e =>
      mkOutcome (Throw e)
                (if write_truncates E path
                 then mkWorld (delete path (files w)) (clock_reads w)
                 else w)
                [WriteFile path data]
  | None =>
      mkOutcome (Normal tt)
                (mkWorld (<[path := data]> (files w)) (clock_reads w))
                [WriteFile path data]
  end.

(** [data.statistics.push(...entries)]; a [TypeError] when [data.statistics]
    is not an array. *)
Definition statistics_push (entries : list jsval) (data : object) : M object :=
  match get_prop "statistics" data with
  | Some (JArr items) => mret (set_prop "statistics" (JArr (items ++ entries)) data)
  | _ => throw (TypeError "data.statistics.push is not a function")
  end.

(** *** Output directory and sink *)

Definition OUTPUT_DIR : string := path_join (dirname E) "data".

Definition ensureOutputDir : M unit :=
  try_catch (fs_mkdir OUTPUT_DIR)
    (fun err => if negb (String.eqb (code err) "EEXIST") then throw err else mret tt).

Definition saveData (filename : string) (data : jsval) : M unit :=
  let filepath := path_join OUTPUT_DIR filename in
  fs_writeFile filepath data ;;
  console_log ("✓ Saved: " +:+ filepath).

Definition USER_AGENT : string := "Mozilla/5.0 (compatible; DataBot/1.0)".

(** *** CDC: HIV/AIDS statistics *)

Definition cdcUrl : string := "https://www.cdc.gov/hiv/group/correctional.html".

Definition cdc_live_statistic : jsval :=
  JObj [("metric", JStr "HIV Rate in Prisons vs General Population");
        ("value", JStr "5x higher");
        ("description", JStr "Incarcerated individuals have HIV rates approximately 5 times higher than the general population");
        ("source", JStr "CDC Correctional Health")].

Definition cdc_established_statistics : list jsval :=
  [JObj [("metric", JStr "HIV Prevalence in State Prisons");
         ("value", JStr "1.3%");
         ("comparison", JStr "0.4% in general US population");
         ("multiplier", JStr "3.25x higher");
         ("year", JNum 2019);
         ("source", JStr "CDC HIV Surveillance Report")];
   JObj [("metric", JStr "Women with HIV in Prison");
         ("value", JStr "1.9%");
         ("description", JStr "Female inmates have higher HIV rates than male inmates (1.3%)");
         ("year", JNum 2019);
         ("source", JStr "Bureau of Justice Statistics / CDC")];
   JObj [("metric", JStr "AIDS-Related Deaths in Prison");
         ("value", JStr "Declining");
         ("description", JStr "Deaths have declined significantly with antiretroviral treatment availability");
         ("source", JStr "CDC")];
   JObj [("metric", JStr "Hepatitis C in Prisons");
         ("value", JStr "17-25%");
         ("description", JStr "Hepatitis C rates are significantly elevated in correctional populations");
         ("source", JStr "CDC Viral Hepatitis")]].

Definition cdc_keyFindings : jsval :=
  JArr [JStr "Incarcerated populations face disproportionately high rates of HIV/AIDS";
        JStr "Women in prison have higher HIV rates than incarcerated men";
        JStr "African American women are disproportionately affected";
        JStr "Lack of consistent healthcare post-release contributes to poor outcomes";
        JStr "HIV testing and treatment in prisons has improved but gaps remain"].

Definition resource (name url : string) : jsval :=
  JObj [("name", JStr name); ("url", JStr url)].

Definition cdc_resources : jsval :=
  JArr [resource "CDC HIV and Corrections" "https://www.cdc.gov/hiv/group/correctional.html";
        resource "CDC HIV Statistics" "https://www.cdc.gov/hiv/statistics/overview/index.html"].

Definition collectCDCData : M jsval :=
  console_log (LF +:+ "📊 Collecting CDC HIV/AIDS Data...") ;;
  now ← Date_toISOString;
  let data : object :=
    [("source", JStr "CDC - Centers for Disease Control and Prevention");
     ("lastUpdated", JStr now);
     ("category", JStr "HIV/AIDS in Correctional Settings");
     ("statistics", JArr [])] in
  try_catch
    (data ← try_catch
       (response ← axios_get cdcUrl USER_AGENT 15000;
        pageText ← cheerio_load response;
        statistics_push [cdc_live_statistic] data)
       (fun err =>
          console_log "  ⚠ Could not fetch live CDC page, using cached statistics" ;;
          mret data);
     data ← statistics_push cdc_established_statistics data;
     let data := set_prop "keyFindings" cdc_keyFindings data in
     let data := set_prop "resources" cdc_resources data in
     saveData "cdc-hiv-aids.json" (JObj data) ;;
     mret (JObj data))
    (fun error =>
       console_error "  ✗ Error collecting CDC data:" (message error) ;;
       mret JNull).

(** *** Missouri Department of Corrections *)

Definition docUrl : string :=
  "https://doc.mo.gov/media-center/newsroom/data-and-statistics".

Definition missouri_statistics : list jsval :=
  [JObj [("metric", JStr "Total Missouri Prison Population");
         ("value", JStr "~23,000");
         ("description", JStr "Total individuals incarcerated in Missouri state prisons");
         ("year", JNum 2024);
         ("source", JStr "Missouri DOC")];
   JObj [("metric", JStr "Female Prison Population in Missouri");
         ("value", JStr "~2,300");
         ("percentage", JStr "~10% of total");
         ("description", JStr "Women incarcerated in Missouri state facilities");
         ("year", JNum 2024);
         ("source", JStr "Missouri DOC")];
   JObj [("metric", JStr "African American Incarceration Rate (Missouri)");
         ("value", JStr "5x higher");
         ("description", JStr "African Americans are incarcerated at 5 times the rate of whites in Missouri");
         ("source", JStr "Prison Policy Initiative / Missouri DOC")];
   JObj [("metric", JStr "Women Released Annually (Missouri)");
         ("value", JStr "~3,000");
         ("description", JStr "Estimated number of women released from Missouri prisons annually");
         ("source", JStr "Missouri DOC Annual Reports")];
   JObj [("metric", JStr "Primary Women's Facility");
         ("value", JStr "Chillicothe Correctional Center");
         ("location", JStr "Chillicothe, MO");
         ("description", JStr "Primary facility housing female offenders in Missouri");
         ("source", JStr "Missouri DOC")]].

Definition challenge (category statistic description : string) : jsval :=
  JObj [("category", JStr category);
        ("statistic", JStr statistic);
        ("description", JStr description)].

Definition missouri_reentryStatistics : jsval :=
  JObj [("description", JStr "Challenges facing women returning from incarceration in Missouri");
        ("challenges", JArr
          [challenge "Housing" "60%+"
             "Women face housing instability within first year of release";
           challenge "Employment" "27%"
             "Unemployment rate for formerly incarcerated individuals (vs 4% general)";
           challenge "Healthcare Access" "70%"
             "Formerly incarcerated women report difficulty accessing healthcare";
           challenge "Mental Health" "75%"
             "Incarcerated women report history of mental health issues";
           challenge "Substance Abuse" "60%"
             "Women in prison report substance abuse history";
           challenge "Trauma History" "86%"
             "Incarcerated women report history of physical or sexual abuse"])].

Definition missouri_resources : jsval :=
  JArr [resource "Missouri DOC" "https://doc.mo.gov/";
        resource "Missouri DOC Data & Statistics" "https://doc.mo.gov/media-center/newsroom/data-and-statistics";
        resource "Missouri Reentry Process" "https://doc.mo.gov/divisions/probation-parole/reentry"].

Definition collectMissouriData : M jsval :=
  console_log (LF +:+ "📊 Collecting Missouri Department of Corrections Data...") ;;
  now ← Date_toISOString;
  let data : object :=
    [("source", JStr "Missouri Department of Corrections");
     ("lastUpdated", JStr now);
     ("category", JStr "Missouri Incarceration Statistics");
     ("statistics", JArr [])] in
  try_catch
    (try_catch
       (response ← axios_get docUrl USER_AGENT 15000;
        _ ← cheerio_load response;
        console_log "  ✓ Fetched Missouri DOC page")
       (fun err =>
          console_log "  ⚠ Could not fetch live DOC page, using reference statistics") ;;
     data ← statistics_push missouri_statistics data;
     let data := set_prop "reentryStatistics" missouri_reentryStatistics data in
     let data := set_prop "resources" missouri_resources data in
     saveData "missouri-doc.json" (JObj data) ;;
     mret (JObj data))
    (fun error =>
       console_error "  ✗ Error collecting Missouri data:" (message error) ;;
       mret JNull).

(** *** Bureau of Justice Statistics: recidivism *)

Definition bjs_statistics : list jsval :=
  [JObj [("metric", JStr "National Recidivism Rate (5 years)");
         ("value", JStr "44%");
         ("description", JStr "Percentage of released prisoners who return to prison within 5 years");
         ("year", JNum 2021);
         ("source", JStr "BJS Recidivism of Prisoners Released Study")];
   JObj [("metric", JStr "Women's Recidivism Rate");
         ("value", JStr "~40%");
         ("description", JStr "Women have slightly lower recidivism rates than men");
         ("comparison", JStr "Men: ~46%");
         ("source", JStr "BJS")];
   JObj [("metric", JStr "3-Year Rearrest Rate");
         ("value", JStr "68%");
         ("description", JStr "Percentage of released prisoners rearrested within 3 years");
         ("source", JStr "BJS")];
   JObj [("metric", JStr "First Year Recidivism");
         ("value", JStr "29%");
         ("description", JStr "Nearly one-third return within the first year - the critical period");
         ("source", JStr "BJS")]].

Definition bjs_africanAmericanWomenStatistics : jsval :=
  JObj [("description", JStr "Statistics specific to African American women and incarceration");
        ("statistics", JArr
          [JObj [("metric", JStr "Incarceration Rate Disparity");
                 ("value", JStr "2x");
                 ("description", JStr "African American women are incarcerated at twice the rate of white women");
                 ("source", JStr "The Sentencing Project")];
           JObj [("metric", JStr "Lifetime Likelihood of Imprisonment");
                 ("value", JStr "1 in 18");
                 ("description", JStr "Lifetime likelihood of imprisonment for Black women (vs 1 in 111 for white women)");
                 ("source", JStr "BJS")];
           JObj [("metric", JStr "Percentage of Female Prison Population");
                 ("value", JStr "~22%");
                 ("description", JStr "African American women as percentage of total female prison population");
                 ("comparison", JStr "~13% of US female population");
                 ("source", JStr "BJS / Census")]])].

Definition intervention (name reduction : string) : jsval :=
  JObj [("intervention", JStr name); ("reduction", JStr reduction)].

Definition bjs_whatWorks : jsval :=
  JObj [("description", JStr "Evidence-based practices that reduce recidivism");
        ("interventions", JArr
          [intervention "Education Programs" "43% lower recidivism";
           intervention "Vocational Training" "28% lower recidivism";
           intervention "Cognitive Behavioral Therapy" "25% lower recidivism";
           intervention "Mentorship Programs" "20-30% lower recidivism";
           intervention "Transitional Housing" "Significant reduction in first-year returns";
           intervention "Employment Assistance" "Critical for long-term success"]);
        ("source", JStr "RAND Corporation / National Institute of Justice")].

Definition bjs_resources : jsval :=
  JArr [resource "Bureau of Justice Statistics" "https://bjs.ojp.gov/";
        resource "BJS Recidivism Studies" "https://bjs.ojp.gov/topics/recidivism";
        resource "The Sentencing Project" "https://www.sentencingproject.org/"].

Definition collectBJSData : M jsval :=
  console_log (LF +:+ "📊 Collecting Bureau of Justice Statistics Data...") ;;
  now ← Date_toISOString;
  let data : object :=
    [("source", JStr "Bureau of Justice Statistics (BJS)");
     ("lastUpdated", JStr now);
     ("category", JStr "Recidivism and Reentry Statistics");
     ("statistics", JArr [])] in
  try_catch
    (data ← statistics_push bjs_statistics data;
     let data := set_prop "africanAmericanWomenStatistics"
                   bjs_africanAmericanWomenStatistics data in
     let data := set_prop "whatWorks" bjs_whatWorks data in
     let data := set_prop "resources" bjs_resources data in
     saveData "bjs-recidivism.json" (JObj data) ;;
     mret (JObj data))
    (fun error =>
       console_error "  ✗ Error collecting BJS data:" (message error) ;;
       mret JNull).

(** *** Combined summary *)

Definition impact (need stat1 stat2 : string) : jsval :=
  JObj [("need", JStr need); ("stats", JArr [JStr stat1; JStr stat2])].

Definition summary_keyStatistics : jsval :=
  JArr [JObj [("label", JStr "African American Women Incarceration Rate");
              ("value", JStr "2x higher than white women");
              ("source", JStr "The Sentencing Project")];
        JObj [("label", JStr "Housing Instability After Release");
              ("value", JStr "60%+");
              ("description", JStr "Face housing instability within first year");
              ("source", JStr "Multiple studies")];
        JObj [("label", JStr "HIV Rate in Incarcerated Women");
              ("value", JStr "5x higher than general population");
              ("source", JStr "CDC")];
        JObj [("label", JStr "National Recidivism Rate");
              ("value", JStr "44%");
              ("description", JStr "Return to prison within 5 years");
              ("source", JStr "Bureau of Justice Statistics")];
        JObj [("label", JStr "IFTS Success Rate");
              ("value", JStr "Only 2 lost to the system");
              ("description", JStr "Compared to 44% national recidivism rate");
              ("source", JStr "Inn From the Storm")]].

Definition summary_impactAreas : jsval :=
  JObj [("legal", impact "Many returning women face ongoing legal challenges"
            "63% have pending legal issues at release"
            "Court navigation is a major barrier");
        ("education", impact "Education dramatically reduces recidivism"
            "43% reduction in recidivism with education programs"
            "GED completion opens employment doors");
        ("health", impact "HIV/AIDS and healthcare access"
            "Women in prison have 5x higher HIV rates"
            "70% report difficulty accessing healthcare post-release");
        ("housing", impact "Stable housing is foundational"
            "60%+ face housing instability in first year"
            "Housing is the #1 barrier to successful reentry");
        ("employment", impact "Employment prevents recidivism"
            "27% unemployment rate for formerly incarcerated"
            "Background check barriers affect 70%+");
        ("mentorship", impact "Peer support works"
            "20-30% reduction in recidivism with mentorship"
            "Hand in Hand model proves effective")].

Definition summary_missouriSpecific : jsval :=
  JObj [("totalIncarcerated", JStr "~23,000");
        ("femalePopulation", JStr "~2,300");
        ("releasedAnnually", JStr "~3,000 women");
        ("primaryFacility", JStr "Chillicothe Correctional Center");
        ("racialDisparity", JStr "5x higher incarceration rate for African Americans")].

Definition summary_dataSources : jsval :=
  JArr [JStr "CDC - Centers for Disease Control and Prevention";
        JStr "Missouri Department of Corrections";
        JStr "Bureau of Justice Statistics";
        JStr "The Sentencing Project";
        JStr "Prison Policy Initiative";
        JStr "RAND Corporation"].

Definition display_stat (key value label : string) : jsval :=
  JObj [("key", JStr key); ("value", JStr value); ("label", JStr label)].

Definition websiteStats_stats : jsval :=
  JArr [display_stat "incarceration_disparity" "2x"
          "African American women incarcerated at 2x the rate";
        display_stat "housing_instability" "60%"
          "Face housing instability in first year";
        display_stat "hiv_rate" "5x"
          "HIV rate compared to general population";
        display_stat "recidivism_national" "44%"
          "National 5-year recidivism rate";
        display_stat "education_impact" "43%"
          "Recidivism reduction with education";
        display_stat "trauma_history" "86%"
          "Incarcerated women with trauma history"].

Definition createSummary (cdcData missouriData bjsData : jsval) : M jsval :=
  console_log (LF +:+ "📊 Creating Combined Summary...") ;;
  generatedAt ← Date_toISOString;
  let summary : jsval :=
    JObj [("title", JStr "Inn From the Storm - Impact Data Summary");
          ("generatedAt", JStr generatedAt);
          ("purpose", JStr "Data supporting the mission of helping formerly incarcerated African American women in Missouri");
          ("keyStatistics", summary_keyStatistics);
          ("impactAreas", summary_impactAreas);
          ("missouriSpecific", summary_missouriSpecific);
          ("dataSources", summary_dataSources)] in
  saveData "summary.json" summary ;;
  lastUpdated ← Date_toISOString;
  let websiteStats : jsval :=
    JObj [("lastUpdated", JStr lastUpdated);
          ("stats", websiteStats_stats)] in
  saveData "website-stats.json" websiteStats ;;
  mret summary.

(** *** Main *)

Definition main (process_argv : list string) : M unit :=
  console_log "╔════════════════════════════════════════════════════════════╗" ;;
  console_log "║  Inn From the Storm - Data Collection Automation           ║" ;;
  console_log "║  Collecting CDC, Missouri DOC, and BJS Statistics          ║" ;;
  console_log "╚════════════════════════════════════════════════════════════╝" ;;
  let args := drop 2 process_argv in
  let collectAll := (length args =? 0)%nat || includes args "--all" in
  ensureOutputDir ;;
  cdcData ← (if collectAll || includes args "--cdc"
             then collectCDCData else mret JNull);
  missouriData ← (if collectAll || includes args "--missouri"
                  then collectMissouriData else mret JNull);
  bjsData ← (if collectAll || includes args "--bjs"
             then collectBJSData else mret JNull);
  (if collectAll
   then createSummary cdcData missouriData bjsData ;; mret tt
   else mret tt) ;;
  console_log (LF +:+ "════════════════════════════════════════════════════════════") ;;
  console_log "✓ Data collection complete!" ;;
  console_log ("  Output directory: " +:+ OUTPUT_DIR) ;;
  console_log ("════════════════════════════════════════════════════════════" +:+ LF).

(** The last line of the script: [main().catch(console.error)]. *)
Definition script (process_argv : list string) : M unit :=
  try_catch (main process_argv) console_error_object.

End Script.

(** The exit status of the Node process once the event loop is empty: the
    script never assigns [process.exitCode] and never calls
    [process.exit], so the status is 1 when the promise of the last line
    is rejected with nobody handling it, and 0 otherwise. *)
Definition exit_status (o : outcome unit) : Z :=
  match result o with
  | Normal _ => 0
  | Throw _ => 1
  end.

(** The three collectors, to quantify over them. *)
Inductive collector : Type := CDC | Missouri | BJS.

Definition collect (c : collector) (E : env) : M jsval :=
  match c with
  | CDC => collectCDCData E
  | Missouri => collectMissouriData E
  | BJS => collectBJSData E
  end.

Definition dataset_file (c : collector) : string :=
  match c with
  | CDC => "cdc-hiv-aids.json"
  | Missouri => "missouri-doc.json"
  | BJS => "bjs-recidivism.json"
  end.

Definition fetch_url (c : collector) : option string :=
  match c with
  | CDC => Some cdcUrl
  | Missouri => Some docUrl
  | BJS => None
  end.

(** ** What one collector does, in closed form

    The definitions from here to the sample platforms are not the model:
    they say in one expression what a function of the script returns,
    writes and logs, or name what the theorems observe.  Each closed form
    is proved equal to the code it stands for ([collect_eq_spec],
    [createSummary_eq_spec], [ensureOutputDir_eq], [main_eq_spec]). *)

Definition dataset_path (E : env) (c : collector) : string :=
  path_join (OUTPUT_DIR E) (dataset_file c).

(** The inner [try] block ran to its end: the page came and cheerio loaded it. *)
Definition fetched (E : env) (url : string) : bool :=
  match net_get E url with
  | inr body => match html_parse E body with inr _ => true | inl _ => false end
  | inl _ => false
  end.

Definition live (E : env) (c : collector) : bool :=
  match fetch_url c with
  | Some url => fetched E url
  | None => false
  end.

Definition dataset (c : collector) (live : bool) (now : string) : object :=
  match c with
  | CDC =>
      [("source", JStr "CDC - Centers for Disease Control and Prevention");
       ("lastUpdated", JStr now);
       ("category", JStr "HIV/AIDS in Correctional Settings");
       ("statistics",
        JArr ((if live then [cdc_live_statistic] else []) ++ cdc_established_statistics));
       ("keyFindings", cdc_keyFindings);
       ("resources", cdc_resources)]
  | Missouri =>
      [("source", JStr "Missouri Department of Corrections");
       ("lastUpdated", JStr now);
       ("category", JStr "Missouri Incarceration Statistics");
       ("statistics", JArr missouri_statistics);
       ("reentryStatistics", missouri_reentryStatistics);
       ("resources", missouri_resources)]
  | BJS =>
      [("source", JStr "Bureau of Justice Statistics (BJS)");
       ("lastUpdated", JStr now);
       ("category", JStr "Recidivism and Reentry Statistics");
       ("statistics", JArr bjs_statistics);
       ("africanAmericanWomenStatistics", bjs_africanAmericanWomenStatistics);
       ("whatWorks", bjs_whatWorks);
       ("resources", bjs_resources)]
  end.

Definition start_line (c : collector) : string :=
  match c with
  | CDC => LF +:+ "📊 Collecting CDC HIV/AIDS Data..."
  | Missouri => LF +:+ "📊 Collecting Missouri Department of Corrections Data..."
  | BJS => LF +:+ "📊 Collecting Bureau of Justice Statistics Data..."
  end.

Definition error_prefix (c : collector) : string :=
  match c with
  | CDC => "  ✗ Error collecting CDC data:"
  | Missouri => "  ✗ Error collecting Missouri data:"
  | BJS => "  ✗ Error collecting BJS data:"
  end.

Definition fetch_events (c : collector) (E : env) : list event :=
  match c with
  | CDC =>
      HttpGet cdcUrl USER_AGENT 15000 ::
      (if fetched E cdcUrl then []
       else [ConsoleLog "  ⚠ Could not fetch live CDC page, using cached statistics"])
  | Missouri =>
      [HttpGet docUrl USER_AGENT 15000;
       ConsoleLog (if fetched E docUrl then "  ✓ Fetched Missouri DOC page"
                   else "  ⚠ Could not fetch live DOC page, using reference statistics")]
  | BJS => []
  end.

(** The Dataset built in world [w]; the value returned; the files and the
    events afterwards. *)
Definition collect_data (c : collector) (E : env) (w : world) : jsval :=
  JObj (dataset c (live E c) (date_now E (clock_reads w))).

Definition collect_returns (c : collector) (E : env) (w : world) : jsval :=
  match write_error E (dataset_path E c) with
  | None => collect_data c E w
  | Some _ => JNull
  end.

(** The files after a refused write of [path]. *)
Definition after_refusal (E : env) (path : string) (m : gmap string jsval)
    : gmap string jsval :=
  if write_truncates E path then delete path m else m.

Definition collect_files (c : collector) (E : env) (w : world) : gmap string jsval :=
  match write_error E (dataset_path E c) with
  | None => <[dataset_path E c := collect_data c E w]> (files w)
  | Some _ => after_refusal E (dataset_path E c) (files w)
  end.

Definition collect_events (c : collector) (E : env) (w : world) : list event :=
  ConsoleLog (start_line c) :: fetch_events c E ++
  [WriteFile (dataset_path E c) (collect_data c E w);
   match write_error E (dataset_path E c) with
   | None => ConsoleLog ("✓ Saved: " +:+ dataset_path E c)
   | Some err => ConsoleError (error_prefix c +:+ " " +:+ message err)
   end].

Definition collect_spec (c : collector) (E : env) (w : world) : outcome jsval :=
  mkOutcome (Normal (collect_returns c E w))
            (mkWorld (collect_files c E w) (S (clock_reads w)))
            (collect_events c E w).

(** ** The aggregator and the entry point, in closed form *)

Definition summary_path (E : env) : string := path_join (OUTPUT_DIR E) "summary.json".

Definition website_stats_path (E : env) : string :=
  path_join (OUTPUT_DIR E) "website-stats.json".

Definition summary_value (generatedAt : string) : jsval :=
  JObj [("title", JStr "Inn From the Storm - Impact Data Summary");
        ("generatedAt", JStr generatedAt);
        ("purpose", JStr "Data supporting the mission of helping formerly incarcerated African American women in Missouri");
        ("keyStatistics", summary_keyStatistics);
        ("impactAreas", summary_impactAreas);
        ("missouriSpecific", summary_missouriSpecific);
        ("dataSources", summary_dataSources)].

Definition websiteStats_value (lastUpdated : string) : jsval :=
  JObj [("lastUpdated", JStr lastUpdated); ("stats", websiteStats_stats)].

Definition summary_start_line : string := LF +:+ "📊 Creating Combined Summary...".

Definition createSummary_spec (E : env) (w : world) : outcome jsval :=
  let summary := summary_value (date_now E (clock_reads w)) in
  let stats := websiteStats_value (date_now E (S (clock_reads w))) in
  let first :=
    [ConsoleLog summary_start_line; WriteFile (summary_path E) summary] in
  match write_error E (summary_path E) with
  | Some err =>
      mkOutcome (Throw err)
                (mkWorld (after_refusal E (summary_path E) (files w)) (S (clock_reads w)))
                first
  | None =>
      let second :=
        first ++ [ConsoleLog ("✓ Saved: " +:+ summary_path E);
                  WriteFile (website_stats_path E) stats] in
      let files1 := <[summary_path E := summary]> (files w) in
      match write_error E (website_stats_path E) with
      | Some err =>
          mkOutcome (Throw err)
            (mkWorld (after_refusal E (website_stats_path E) files1)
                     (S (S (clock_reads w))))
            second
      | None =>
          mkOutcome (Normal summary)
            (mkWorld (<[website_stats_path E := stats]> files1)
                     (S (S (clock_reads w))))
            (second ++ [ConsoleLog ("✓ Saved: " +:+ website_stats_path E)])
      end
  end.

(** [ensureOutputDir] fails only with an error other than EEXIST. *)
Definition ensure_result (E : env) : completion unit :=
  match mkdir_error E (OUTPUT_DIR E) with
  | None => Normal tt
  | Some err => if String.eqb (code err) "EEXIST" then Normal tt else Throw err
  end.

Definition banner : list event :=
  [ConsoleLog "╔════════════════════════════════════════════════════════════╗";
   ConsoleLog "║  Inn From the Storm - Data Collection Automation           ║";
   ConsoleLog "║  Collecting CDC, Missouri DOC, and BJS Statistics          ║";
   ConsoleLog "╚════════════════════════════════════════════════════════════╝"].

Definition completion_lines (E : env) : list event :=
  [ConsoleLog (LF +:+ "════════════════════════════════════════════════════════════");
   ConsoleLog "✓ Data collection complete!";
   ConsoleLog ("  Output directory: " +:+ OUTPUT_DIR E);
   ConsoleLog ("════════════════════════════════════════════════════════════" +:+ LF)].

Definition collectAll (args : list string) : bool :=
  (length args =? 0)%nat || includes args "--all".

Definition flag (c : collector) : string :=
  match c with
  | CDC => "--cdc"
  | Missouri => "--missouri"
  | BJS => "--bjs"
  end.

Definition selected (args : list string) (c : collector) : bool :=
  collectAll args || includes args (flag c).

(** One of the three [if] statements of [main]. *)
Definition step (c : collector) (E : env) (args : list string) (w : world) : outcome jsval :=
  if selected args c then collect_spec c E w else mkOutcome (Normal JNull) w [].

Definition main_spec (E : env) (args : list string) (w : world) : outcome unit :=
  match ensure_result E with
  | Throw err => mkOutcome (Throw err) w (banner ++ [Mkdir (OUTPUT_DIR E)])
  | Normal _ =>
      let o1 := step CDC E args w in
      let o2 := step Missouri E args (final o1) in
      let o3 := step BJS E args (final o2) in
      let collected :=
        banner ++ Mkdir (OUTPUT_DIR E) :: events o1 ++ events o2 ++ events o3 in
      if collectAll args then
        let o4 := createSummary_spec E (final o3) in
        match result o4 with
        | Throw err => mkOutcome (Throw err) (final o4) (collected ++ events o4)
        | Normal _ =>
            mkOutcome (Normal tt) (final o4)
                      (collected ++ events o4 ++ completion_lines E)
        end
      else mkOutcome (Normal tt) (final o3) (collected ++ completion_lines E)
  end.

(** The error [main] is rejected with, if any: [ensureOutputDir] and
    [createSummary] are the only calls outside a [try] block. *)
Definition uncaught_error (E : env) (args : list string) : option js_error :=
  match ensure_result E with
  | Throw err => Some err
  | Normal _ =>
      if collectAll args then
        match write_error E (summary_path E) with
        | Some err => Some err
        | None => write_error E (website_stats_path E)
        end
      else None
  end.

(** ** Observations *)

(** The HTTP requests and the paths of the write calls among some events. *)
Definition is_request (ev : event) : bool :=
  match ev with HttpGet _ _ _ => true | _ => false end.

Definition requests (evs : list event) : list event := List.filter is_request evs.

Definition write_path (ev : event) : list string :=
  match ev with WriteFile path _ => [path] | _ => [] end.

Definition writes (evs : list event) : list string := flat_map write_path evs.

Definition sink_accepts (E : env) (c : collector) : bool :=
  match write_error E (dataset_path E c) with None => true | Some _ => false end.

(** The network is down for the page of collector [c]. *)
Definition fetch_fails (E : env) (c : collector) : Prop :=
  ∀ url, fetch_url c = Some url → ∃ err, net_get E url = inl err.

(** The line a collector logs when its fetch fails. *)
Definition fetch_warning (c : collector) : list event :=
  match c with
  | CDC => [ConsoleLog "  ⚠ Could not fetch live CDC page, using cached statistics"]
  | Missouri => [ConsoleLog "  ⚠ Could not fetch live DOC page, using reference statistics"]
  | BJS => []
  end.

(** [mkdir] succeeds, or fails because the directory is there already. *)
Definition output_dir_ready (E : env) : Prop :=
  ∀ err, mkdir_error E (OUTPUT_DIR E) = Some err → code err = "EEXIST".

(** The [statistics] array of an object, and the StatEntries of a Dataset:
    its own [statistics] and those of its supplementary sections. *)
Definition statistics_array (o : object) : list jsval :=
  match get_prop "statistics" o with
  | Some (JArr entries) => entries
  | _ => []
  end.

Definition section_statistics (kv : string * jsval) : list jsval :=
  match snd kv with
  | JObj section => statistics_array section
  | _ => []
  end.

Definition stat_entries (d : object) : list jsval :=
  statistics_array d ++ flat_map section_statistics d.

(** A StatEntry of Dataset [owner] with a metric, a value and a source of
    its own or of its owner. *)
Definition stat_entry_ok (owner : object) (entry : jsval) : bool :=
  match entry with
  | JObj e =>
      nonempty_string_prop "metric" e && nonempty_string_prop "value" e &&
      (nonempty_string_prop "source" e || nonempty_string_prop "source" owner)
  | _ => false
  end.

Definition dataset_ok (v : jsval) : bool :=
  match v with
  | JObj d => forallb (stat_entry_ok d) (stat_entries d)
  | _ => false
  end.

(** A StatEntry of Dataset [owner], as a proposition. *)
Definition has_text (k : string) (o : object) : Prop :=
  ∃ s, get_prop k o = Some (JStr s) ∧ s ≠ "".

Definition well_formed_entry (owner : object) (entry : jsval) : Prop :=
  ∃ e, entry = JObj e ∧ has_text "metric" e ∧ has_text "value" e ∧
       (has_text "source" e ∨ has_text "source" owner).



(** The three collector flags, without [--all]. *)
Definition three_flags : list string := ["--cdc"; "--missouri"; "--bjs"].

(** ** Further observations *)

(** The write calls that the file system accepted, in order. *)
Definition successful_write (E : env) (ev : event) : list (string * jsval) :=
  match ev with
  | WriteFile path data =>
      match write_error E path with
      | None => [(path, data)]
      | Some _ => []
      end
  | _ => []
  end.

Definition written (E : env) (evs : list event) : list (string * jsval) :=
  flat_map (successful_write E) evs.

(** What the write calls did to the files, in order: an accepted write
    puts its document ([Some]), a write refused after the file was opened
    loses the file ([None]), a write refused at the opening does nothing. *)
Definition change_of (E : env) (ev : event) : list (string * option jsval) :=
  match ev with
  | WriteFile path data =>
      match write_error E path with
      | None => [(path, Some data)]
      | Some _ => if write_truncates E path then [(path, None)] else []
      end
  | _ => []
  end.

Definition changes (E : env) (evs : list event) : list (string * option jsval) :=
  flat_map (change_of E) evs.

Definition apply_change (m : gmap string jsval) (kv : string * option jsval)
    : gmap string jsval :=
  match kv.2 with
  | Some data => <[kv.1 := data]> m
  | None => delete kv.1 m
  end.

Definition apply_changes (l : list (string * option jsval)) (m : gmap string jsval)
    : gmap string jsval :=
  foldl apply_change m l.

(** A change with [f] applied to the document it puts. *)
Definition map_change (f : jsval -> jsval) (kv : string * option jsval)
    : string * option jsval :=
  (kv.1, option_map f kv.2).

(** A value without the two timestamps the script sets. *)
Definition strip_timestamps (v : jsval) : jsval :=
  erase "generatedAt" (erase "lastUpdated" v).

(** The line [saveData] logs after a write, and the line that closes a run. *)
Definition saved_line (path : string) : string := "✓ Saved: " +:+ path.


(** What a run does to the world outside, in order. *)
Inductive effect : Type :=
| MakeDir (path : string)
| Fetch (url : string)
| Save (path : string).

Definition effect_of (ev : event) : list effect :=
  match ev with
  | Mkdir path => [MakeDir path]
  | HttpGet url _ _ => [Fetch url]
  | WriteFile path _ => [Save path]
  | _ => []
  end.

Definition effects (evs : list event) : list effect := flat_map effect_of evs.

(** A plain file name: not empty, not a dot name, and without a separator.
    On such a name [path.join dir name] appends "/" and the name to the
    normalized directory. *)
Fixpoint has_separator (s : string) : bool :=
  match s with
  | EmptyString => false
  | String ch s' => Ascii.eqb ch (Ascii.ascii_of_nat 47) || has_separator s'
  end.

Definition plain_name (name : string) : bool :=
  negb (String.eqb name "") && negb (String.eqb name ".") &&
  negb (String.eqb name "..") && negb (has_separator name).

(** The five output files. *)
Definition output_paths (E : env) : list string :=
  [dataset_path E CDC; dataset_path E Missouri; dataset_path E BJS;
   summary_path E; website_stats_path E].

(** ** Sample platforms *)

Module Sample.

(** A clock that advances by a second at each reading. *)
Definition now (n : nat) : string :=
  match n with
  | 0 => "2026-01-04T00:00:00.000Z"
  | 1 => "2026-01-04T00:00:01.000Z"
  | 2 => "2026-01-04T00:00:02.000Z"
  | 3 => "2026-01-04T00:00:03.000Z"
  | 4 => "2026-01-04T00:00:04.000Z"
  | _ => "2026-01-04T00:00:05.000Z"
  end.

Definition EACCES : js_error := mkError "EACCES" "EACCES: permission denied".
Definition ENOTFOUND : js_error := mkError "ENOTFOUND" "getaddrinfo ENOTFOUND".

(** Everything works. *)
Definition online : env :=
  mkEnv "/srv/site/automation" now
        (fun _ => inr "<html><body>statistics</body></html>")
        (fun _ => inr "statistics")
        (fun _ => None) (fun _ => None) (fun _ => false).

(** The network is down. *)
Definition offline : env :=
  mkEnv "/srv/site/automation" now (fun _ => inl ENOTFOUND)
        (fun _ => inr "statistics")
        (fun _ => None) (fun _ => None) (fun _ => false).

(** The output directory exists and nothing can be written into it. *)
Definition read_only : env :=
  mkEnv "/srv/site/automation" now
        (fun _ => inr "<html><body>statistics</body></html>")
        (fun _ => inr "statistics")
        (fun _ => Some (mkError "EEXIST" "EEXIST: file already exists"))
        (fun _ => Some EACCES) (fun _ => false).

(** The output directory cannot be created. *)
Definition no_directory : env :=
  mkEnv "/srv/site/automation" now
        (fun _ => inr "<html><body>statistics</body></html>")
        (fun _ => inr "statistics")
        (fun _ => Some EACCES) (fun _ => Some EACCES) (fun _ => false).

Definition fresh : world := mkWorld ∅ 0.

End Sample.

(** Every file is written but [website-stats.json]. *)
Definition stats_locked : env :=
  mkEnv "/srv/site/automation" Sample.now
        (fun _ => inr "<html><body>statistics</body></html>")
        (fun _ => inr "statistics")
        (fun _ => None)
        (fun path => if String.eqb path "/srv/site/automation/data/website-stats.json"
                     then Some Sample.EACCES else None)
        (fun _ => false).



(** The pages arrive, and cheerio cannot load them. *)
Definition garbled : env :=
  mkEnv "/srv/site/automation" Sample.now
        (fun _ => inr "<html")
        (fun _ => inl (mkError "" "Cannot read properties of undefined"))
        (fun _ => None) (fun _ => None) (fun _ => false).

(** ** The code and its closed form *)

(** Unfolding the monad and the platform primitives, and nothing of the
    strings that depend on [__dirname]. *)
Ltac exec :=
  cbv beta iota zeta delta
    [collect collectCDCData collectMissouriData collectBJSData createSummary
     ensureOutputDir saveData statistics_push
     fs_writeFile fs_mkdir cheerio_load axios_get Date_toISOString
     console_error_object console_error console_log emit try_catch
     bind ret throw mbind mret M_bind M_ret
     result final events files clock_reads
     get_prop set_prop String.eqb Ascii.eqb Bool.eqb app negb
     collect_spec collect_data collect_returns collect_files collect_events
     after_refusal dataset dataset_path dataset_file live fetched fetch_url
     fetch_events start_line error_prefix].

(** Case analysis on the next answer of the platform. *)
Ltac oracle :=
  match goal with
  | |- context [net_get ?E ?u] => destruct (net_get E u) eqn:?
  | |- context [html_parse ?E ?b] => destruct (html_parse E b) eqn:?
  | |- context [write_error ?E ?p] => destruct (write_error E p) eqn:?
  | |- context [mkdir_error ?E ?p] => destruct (mkdir_error E p) eqn:?
  | |- context [write_truncates ?E ?p] => destruct (write_truncates E p) eqn:?
  end.

(** Each collector computes its closed form, whatever the platform answers. *)
Lemma collect_eq_spec (c : collector) (E : env) (w : world) :
  collect c E w = collect_spec c E w.
Proof.
  destruct c; exec; repeat (oracle; exec); reflexivity.
Qed.

(** So does the aggregator, whatever Datasets it is given. *)
Lemma createSummary_eq_spec (E : env) (cdcData missouriData bjsData : jsval) (w : world) :
  createSummary E cdcData missouriData bjsData w = createSummary_spec E w.
Proof.
  exec. cbv beta iota zeta delta [createSummary_spec summary_path website_stats_path
    summary_value websiteStats_value summary_start_line app files clock_reads
    after_refusal].
  repeat (oracle; exec); reflexivity.
Qed.

Lemma ensureOutputDir_eq (E : env) (w : world) :
  ensureOutputDir E w = mkOutcome (ensure_result E) w [Mkdir (OUTPUT_DIR E)].
Proof.
  unfold ensure_result, ensureOutputDir, try_catch, fs_mkdir.
  destruct (mkdir_error E (OUTPUT_DIR E)) as [err|]; [|reflexivity].
  destruct (String.eqb (code err) "EEXIST"); reflexivity.
Qed.

(** [main] on [process.argv = node :: file :: args]. *)
Lemma main_eq_spec (E : env) (node file : string) (args : list string) (w : world) :
  main E (node :: file :: args) w = main_spec E args w.
Proof.
  unfold main, main_spec, step, selected. cbn [drop]. rewrite drop_0.
  fold (collectAll args).
  cbv beta iota zeta delta [bind mbind mret M_bind M_ret ret console_log emit].
  rewrite ensureOutputDir_eq.
  destruct (ensure_result E) as [[]|err]; [|reflexivity].
  change (collectCDCData E) with (collect CDC E).
  change (collectMissouriData E) with (collect Missouri E).
  change (collectBJSData E) with (collect BJS E).
  destruct (collectAll args); cbn [orb flag].
  - do 3 (rewrite collect_eq_spec; unfold collect_spec at 1; cbv iota beta).
    rewrite createSummary_eq_spec. unfold collect_spec.
    cbn [events final result clock_reads].
    destruct (createSummary_spec E _) as [[s|err] w4 evs4];
      cbn [events final result banner app];
      rewrite ?app_nil_r, <- ?app_assoc; reflexivity.
  - destruct (includes args "--cdc"), (includes args "--missouri"),
      (includes args "--bjs");
      repeat (rewrite collect_eq_spec; unfold collect_spec at 1; cbv iota beta);
      unfold collect_spec; cbn [events final result clock_reads banner app];
      rewrite ?app_nil_r, <- ?app_assoc; reflexivity.
Qed.

(** ** Paths *)

Lemma append_inj (p a b : string) : p +:+ a = p +:+ b → a = b.
Proof.
  induction p as [|ch p IH]; intros H; [exact H|].
  change (String ch (p +:+ a) = String ch (p +:+ b)) in H.
  apply IH. congruence.
Qed.

Lemma path_join_inj (dir a b : string) : path_join dir a = path_join dir b → a = b.
Proof.
  unfold path_join. intros H%append_inj.
  cbv in H. congruence.
Qed.

Lemma dataset_path_inj (E : env) (c c' : collector) :
  dataset_path E c = dataset_path E c' → c = c'.
Proof.
  intros H. apply path_join_inj in H. destruct c, c'; done.
Qed.

Lemma dataset_path_not_summary (E : env) (c : collector) :
  dataset_path E c ≠ summary_path E ∧ dataset_path E c ≠ website_stats_path E.
Proof.
  split; intros H; apply path_join_inj in H; destruct c; done.
Qed.

(** ** The collectors *)

Lemma collect_result (c : collector) (E : env) (w : world) :
  result (collect c E w) = Normal (collect_returns c E w).
Proof. by rewrite collect_eq_spec. Qed.

Lemma collect_events_eq (c : collector) (E : env) (w : world) :
  events (collect c E w) = collect_events c E w.
Proof. by rewrite collect_eq_spec. Qed.

Lemma collect_final (c : collector) (E : env) (w : world) :
  final (collect c E w) = mkWorld (collect_files c E w) (S (clock_reads w)).
Proof. by rewrite collect_eq_spec. Qed.

Lemma fetch_fails_not_live (E : env) (c : collector) : fetch_fails E c → live E c = false.
Proof.
  unfold fetch_fails, live, fetched. intros H.
  destruct (fetch_url c) as [url|]; [|done].
  destruct (H url eq_refl) as [err ->]. done.
Qed.

Lemma nonempty_string_prop_true (k : string) (o : object) :
  nonempty_string_prop k o = true → has_text k o.
Proof.
  unfold nonempty_string_prop, has_text.
  destruct (get_prop k o) as [[|s| | |]|]; try discriminate.
  intros H. exists s. split; [done|]. intros ->. discriminate.
Qed.

Lemma stat_entry_ok_true (owner : object) (entry : jsval) :
  stat_entry_ok owner entry = true → well_formed_entry owner entry.
Proof.
  destruct entry as [| | | |e]; try discriminate. cbn [stat_entry_ok].
  rewrite !andb_true_iff, orb_true_iff. intros [[Hm Hv] Hs].
  exists e. repeat split; auto using nonempty_string_prop_true.
  destruct Hs; auto using nonempty_string_prop_true.
Qed.

Lemma dataset_ok_true (d : object) :
  dataset_ok (JObj d) = true → Forall (well_formed_entry d) (stat_entries d).
Proof.
  cbn [dataset_ok]. rewrite forallb_forall, Forall_forall.
  intros H entry Hin. apply stat_entry_ok_true, H, list_elem_of_In, Hin.
Qed.

Lemma dataset_always_ok (c : collector) (fetched_page : bool) (now : string) :
  dataset_ok (JObj (dataset c fetched_page now)) = true.
Proof. destruct c, fetched_page; vm_compute; reflexivity. Qed.

Lemma collect_writes_its_data (c : collector) (E : env) (w : world) (path : string) (v : jsval) :
  WriteFile path v ∈ collect_events c E w →
  path = dataset_path E c ∧ v = collect_data c E w.
Proof.
  unfold collect_events, fetch_events. intros H.
  apply elem_of_cons in H as [H|H]; [discriminate|].
  apply elem_of_app in H as [H|H].
  - destruct c; repeat (apply elem_of_cons in H as [H|H]; [discriminate|]);
      try (by apply elem_of_nil in H).
    destruct (fetched E cdcUrl);
      repeat (apply elem_of_cons in H as [H|H]; [discriminate|]);
      by apply elem_of_nil in H.
  - apply elem_of_cons in H as [H|H]; [by injection H|].
    apply elem_of_cons in H as [H|H]; [|by apply elem_of_nil in H].
    destruct (write_error E (dataset_path E c)); discriminate.
Qed.

(** C4.  A collector whose network fetch fails raises no error: it completes
    normally, having logged the failure as a warning of its own, and,
    the sink taking the file, it returns the Dataset of reference
    statistics, whose [statistics] array is not empty. *)
Theorem fetch_failure_never_propagates (c : collector) (E : env) (w : world) :
  fetch_fails E c →
  (∃ v, result (collect c E w) = Normal v) ∧
  fetch_warning c ⊆ events (collect c E w) ∧
  (sink_accepts E c = true →
   ∃ d stats,
     result (collect c E w) = Normal (JObj d) ∧
     d = dataset c false (date_now E (clock_reads w)) ∧
     get_prop "statistics" d = Some (JArr stats) ∧ stats ≠ []).
Proof.
  intros Hdown. pose proof (fetch_fails_not_live E c Hdown) as Hlive.
  rewrite collect_result, collect_events_eq. split; [eauto|]. split.
  - unfold collect_events, fetch_events. intros ev Hev.
    destruct c; cbn [fetch_warning] in Hev.
    + change (live E CDC) with (fetched E cdcUrl) in Hlive. rewrite Hlive.
      apply list_elem_of_singleton in Hev as ->. set_solver.
    + change (live E Missouri) with (fetched E docUrl) in Hlive. rewrite Hlive.
      apply list_elem_of_singleton in Hev as ->. set_solver.
    + by apply elem_of_nil in Hev.
  - unfold sink_accepts, collect_returns, collect_data. rewrite Hlive.
    destruct (write_error E (dataset_path E c)); [discriminate|]. intros _.
    destruct c; eexists _, _; (split; [reflexivity|]);
      (split; [reflexivity|]); (split; [reflexivity|]); discriminate.
Qed.

(** The Missouri collector with the network down: five reference statistics. *)
Lemma fetch_failure_never_propagates_offline :
  fetch_fails Sample.offline Missouri ∧
  sink_accepts Sample.offline Missouri = true ∧
  ∃ d stats,
    result (collect Missouri Sample.offline Sample.fresh) = Normal (JObj d) ∧
    get_prop "statistics" d = Some (JArr stats) ∧ length stats = 5.
Proof.
  assert (Hdown : fetch_fails Sample.offline Missouri).
  { intros url _. exists Sample.ENOTFOUND. reflexivity. }
  split; [exact Hdown|]. split; [reflexivity|].
  destruct (fetch_failure_never_propagates Missouri Sample.offline Sample.fresh Hdown)
    as (_ & _ & Hdata).
  destruct (Hdata eq_refl) as (d & stats & Hres & Hd & Hstats & _).
  exists d, stats. split; [exact Hres|]. split; [exact Hstats|].
  rewrite Hd in Hstats. vm_compute in Hstats. by injection Hstats as <-.
Defined.

(** C9.  In the Dataset a collector returns, and in the one it hands to the
    sink, every StatEntry (of [statistics] and of the supplementary
    sections) has a non-empty metric, a non-empty value and a non-empty
    source of its own or of the Dataset. *)
Theorem every_stat_entry_attributable (c : collector) (E : env) (w : world) :
  (∀ d, result (collect c E w) = Normal (JObj d) →
        Forall (well_formed_entry d) (stat_entries d)) ∧
  (∀ path v, WriteFile path v ∈ events (collect c E w) →
        ∃ d, v = JObj d ∧ Forall (well_formed_entry d) (stat_entries d)).
Proof.
  rewrite collect_result, collect_events_eq. split.
  - intros d. unfold collect_returns, collect_data.
    destruct (write_error E (dataset_path E c)); [discriminate|].
    intros [= <-]. apply dataset_ok_true, dataset_always_ok.
  - intros path v [_ ->]%collect_writes_its_data.
    eexists. split; [reflexivity|]. apply dataset_ok_true, dataset_always_ok.
Qed.

(** The BJS Dataset: four entries of its own and three in a section. *)
Lemma every_stat_entry_attributable_online :
  ∃ d, result (collect BJS Sample.online Sample.fresh) = Normal (JObj d) ∧
       length (stat_entries d) = 7 ∧
       Forall (well_formed_entry d) (stat_entries d).
Proof.
  eexists. split; [vm_compute; reflexivity|]. split; [reflexivity|].
  apply (every_stat_entry_attributable BJS Sample.online Sample.fresh).
  vm_compute. reflexivity.
Defined.

(** C2 (as the code has it).  When the sink refuses the Dataset file, the
    collector catches the error: it completes normally with [null], and
    its last act is to log the error's message with [console.error]. *)
Theorem write_failure_yields_null (c : collector) (E : env) (w : world) (err : js_error) :
  write_error E (dataset_path E c) = Some err →
  result (collect c E w) = Normal JNull ∧
  last (events (collect c E w))
    = Some (ConsoleError (error_prefix c +:+ " " +:+ message err)).
Proof.
  intros Hw. rewrite collect_result, collect_events_eq.
  unfold collect_returns, collect_events. rewrite Hw.
  split; [reflexivity|].
  rewrite app_comm_cons, last_app. reflexivity.
Qed.

(** The BJS collector on a directory that takes no file. *)
Lemma write_failure_yields_null_read_only :
  write_error Sample.read_only (dataset_path Sample.read_only BJS) = Some Sample.EACCES ∧
  result (collect BJS Sample.read_only Sample.fresh) = Normal JNull.
Proof.
  split; [reflexivity|].
  apply (write_failure_yields_null BJS Sample.read_only Sample.fresh Sample.EACCES).
  reflexivity.
Defined.

(** C2, counterexample: the sink refuses the CDC file, and the collector
    does not throw. *)
Lemma write_failure_is_not_propagated :
  write_error Sample.read_only (dataset_path Sample.read_only CDC) = Some Sample.EACCES ∧
  ¬ ∃ err, result (collect CDC Sample.read_only Sample.fresh) = Throw err.
Proof.
  split; [reflexivity|]. intros [err H]. vm_compute in H. discriminate.
Qed.

Lemma erase_lastUpdated (c : collector) (fetched_page : bool) (now now' : string) :
  erase "lastUpdated" (JObj (dataset c fetched_page now))
  = erase "lastUpdated" (JObj (dataset c fetched_page now')).
Proof. destruct c, fetched_page; reflexivity. Qed.

Lemma dataset_without_fetch (c : collector) (a b : bool) (now : string) :
  c ≠ CDC → dataset c a now = dataset c b now.
Proof. destruct c; [done|reflexivity|reflexivity]. Qed.

(** C1 (as the code has it).  Take two runs of a collector on platforms that
    may differ in everything (network, clock, files) but agree on whether
    the sink takes the Dataset file.  Both complete normally.  For the
    Missouri and BJS collectors, and for the CDC collector when the two
    fetches end alike, the returned values are equal up to [lastUpdated].
    For the CDC collector, a fetch that succeeds puts one more StatEntry in
    front of [statistics]; nothing else differs from the run whose fetch
    failed. *)
Theorem fetch_outcome_and_dataset (c : collector) (E E' : env) (w w' : world) :
  sink_accepts E c = sink_accepts E' c →
  ∃ v v',
    result (collect c E w) = Normal v ∧ result (collect c E' w') = Normal v' ∧
    (c ≠ CDC ∨ fetched E cdcUrl = fetched E' cdcUrl →
       erase "lastUpdated" v = erase "lastUpdated" v') ∧
    (c = CDC → fetched E cdcUrl = true → fetched E' cdcUrl = false →
     sink_accepts E c = true →
       ∃ d d' stats,
         v = JObj d ∧ v' = JObj d' ∧
         get_prop "statistics" d' = Some (JArr stats) ∧
         without_prop "lastUpdated" d
         = set_prop "statistics" (JArr (cdc_live_statistic :: stats))
             (without_prop "lastUpdated" d')).
Proof.
  intros Hsink. rewrite !collect_result. eexists _, _.
  split; [reflexivity|]. split; [reflexivity|].
  unfold sink_accepts, collect_returns, collect_data in *. split.
  - intros Hsame.
    destruct (write_error E (dataset_path E c)), (write_error E' (dataset_path E' c));
      try discriminate; [reflexivity|].
    rewrite (erase_lastUpdated c _ _ (date_now E' (clock_reads w'))).
    destruct Hsame as [Hc|Hf].
    + by rewrite (dataset_without_fetch c (live E c) (live E' c)).
    + destruct c; try reflexivity.
      change (live E CDC) with (fetched E cdcUrl).
      change (live E' CDC) with (fetched E' cdcUrl). by rewrite Hf.
  - intros -> Hok Hfail.
    change (live E CDC) with (fetched E cdcUrl).
    change (live E' CDC) with (fetched E' cdcUrl). rewrite Hok, Hfail.
    destruct (write_error E (dataset_path E CDC)); [discriminate|].
    destruct (write_error E' (dataset_path E' CDC)); [discriminate|]. intros _.
    eexists _, _, _. split; [reflexivity|]. split; [reflexivity|].
    split; reflexivity.
Qed.

(** The CDC collector with the page fetched and with the network down. *)
Lemma fetch_outcome_and_dataset_online_offline :
  sink_accepts Sample.online CDC = sink_accepts Sample.offline CDC ∧
  fetched Sample.online cdcUrl = true ∧ fetched Sample.offline cdcUrl = false ∧
  ∃ d d' stats,
    result (collect CDC Sample.online Sample.fresh) = Normal (JObj d) ∧
    result (collect CDC Sample.offline Sample.fresh) = Normal (JObj d') ∧
    statistics_array d' = stats ∧
    statistics_array d = cdc_live_statistic :: stats.
Proof.
  split; [reflexivity|]. split; [reflexivity|]. split; [reflexivity|].
  destruct (fetch_outcome_and_dataset CDC Sample.online Sample.offline
              Sample.fresh Sample.fresh eq_refl) as (v & v' & Hv & Hv' & _ & Hcdc).
  destruct (Hcdc eq_refl eq_refl eq_refl eq_refl) as (d & d' & stats & -> & -> & Hs & Hd).
  exists d, d', stats. split; [exact Hv|]. split; [exact Hv'|].
  vm_compute in Hv. injection Hv as <-.
  vm_compute in Hv'. injection Hv' as <-.
  vm_compute in Hs. injection Hs as <-.
  split; reflexivity.
Defined.

(** C1, counterexample: with the page fetched the CDC Dataset has five
    entries, with the network down it has four. *)
Lemma cdc_dataset_depends_on_fetch :
  ∃ v v',
    result (collect CDC Sample.online Sample.fresh) = Normal v ∧
    result (collect CDC Sample.offline Sample.fresh) = Normal v' ∧
    erase "lastUpdated" v ≠ erase "lastUpdated" v'.
Proof.
  eexists _, _. split; [vm_compute; reflexivity|]. split; [vm_compute; reflexivity|].
  intros H.
  apply (f_equal (fun v => match v with
                           | JObj d => length (statistics_array d)
                           | _ => 0
                           end)) in H.
  vm_compute in H. discriminate.
Qed.

(** ** The entry point *)

Lemma script_final (E : env) (argv : list string) (w : world) :
  final (script E argv w) = final (main E argv w).
Proof.
  unfold script, try_catch, console_error_object, emit.
  by destruct (main E argv w) as [[u|err] w1 evs].
Qed.

Lemma script_events (E : env) (argv : list string) (w : world) :
  events (script E argv w)
  = events (main E argv w) ++
    match result (main E argv w) with
    | Normal _ => []
    | Throw err => [ConsoleErrorObject err]
    end.
Proof.
  unfold script, try_catch, console_error_object, emit.
  destruct (main E argv w) as [[u|err] w1 evs]; cbn [events result];
    by rewrite ?app_nil_r.
Qed.

Lemma main_result (E : env) (node file : string) (args : list string) (w : world) :
  result (main E (node :: file :: args) w)
  = match uncaught_error E args with
    | Some err => Throw err
    | None => Normal tt
    end.
Proof.
  rewrite main_eq_spec. unfold main_spec, uncaught_error, createSummary_spec.
  destruct (ensure_result E) as [[]|err]; [|reflexivity].
  destruct (collectAll args); [|reflexivity]. cbv zeta.
  destruct (write_error E (summary_path E)); [reflexivity|].
  destruct (write_error E (website_stats_path E)); reflexivity.
Qed.

(** C3 (as the code has it).  The last line handles every rejection of
    [main]: the error is logged with [console.error] after what [main] had
    logged, and the promise of the last line is fulfilled.  The exit status
    is therefore 0 whether or not an error occurred.  The errors that
    reach the last line are those of creating the output directory and, on
    a full run, of the two writes of the aggregator. *)
Theorem script_exit_status (E : env) (argv : list string) (w : world) :
  exit_status (script E argv w) = 0%Z ∧
  (∀ err, result (main E argv w) = Throw err →
     events (script E argv w) = events (main E argv w) ++ [ConsoleErrorObject err]) ∧
  (∀ u, result (main E argv w) = Normal u →
     events (script E argv w) = events (main E argv w)) ∧
  (∀ node file args err, argv = node :: file :: args →
     (result (main E argv w) = Throw err ↔ uncaught_error E args = Some err)).
Proof.
  split; [|split; [|split]].
  - unfold exit_status, script, try_catch, console_error_object, emit.
    by destruct (main E argv w) as [[u|err] w1 evs].
  - intros err H. by rewrite script_events, H.
  - intros u H. by rewrite script_events, H, app_nil_r.
  - intros node file args err ->. rewrite main_result.
    destruct (uncaught_error E args); split; congruence.
Qed.

(** A full run on a directory that takes no file: the collectors swallow
    their write errors, the aggregator does not, and the error is logged. *)
Lemma script_exit_status_read_only :
  result (main Sample.read_only ["node"; "collect-data.js"] Sample.fresh)
    = Throw Sample.EACCES ∧
  last (events (script Sample.read_only ["node"; "collect-data.js"] Sample.fresh))
    = Some (ConsoleErrorObject Sample.EACCES).
Proof.
  assert (H : result (main Sample.read_only ["node"; "collect-data.js"] Sample.fresh)
              = Throw Sample.EACCES) by (vm_compute; reflexivity).
  split; [exact H|].
  destruct (script_exit_status Sample.read_only ["node"; "collect-data.js"] Sample.fresh)
    as (_ & Hlog & _).
  rewrite (Hlog _ H). apply last_snoc.
Defined.

(** C3, counterexample: the output directory cannot be created, [main]
    throws, and the exit status is 0. *)
Lemma uncaught_error_exits_zero :
  result (main Sample.no_directory ["node"; "collect-data.js"] Sample.fresh)
    = Throw Sample.EACCES ∧
  exit_status (script Sample.no_directory ["node"; "collect-data.js"] Sample.fresh) = 0%Z.
Proof. split; vm_compute; reflexivity. Qed.

Lemma output_dir_ready_ensure (E : env) : output_dir_ready E → ensure_result E = Normal tt.
Proof.
  unfold output_dir_ready, ensure_result. intros H.
  destruct (mkdir_error E (OUTPUT_DIR E)) as [err|]; [|done].
  by rewrite (H err eq_refl).
Qed.

Lemma includes_elem_of (args : list string) (f : string) :
  includes args f = true ↔ f ∈ args.
Proof.
  induction args as [|a args IH]; cbn [includes].
  - rewrite elem_of_nil. split; [discriminate|done].
  - rewrite orb_true_iff, elem_of_cons, IH, String.eqb_eq.
    split; (intros [H|H]; [by left|by right]).
Qed.

Lemma collectAll_true (args : list string) :
  collectAll args = true ↔ args = [] ∨ "--all" ∈ args.
Proof.
  unfold collectAll. rewrite orb_true_iff, includes_elem_of, Nat.eqb_eq.
  by rewrite length_zero_iff_nil.
Qed.

(** Splitting [ev ∈ l1 ++ x :: l2] into its cases. *)
Ltac split_elem H :=
  repeat match type of H with
         | _ ∈ _ ++ _ => apply elem_of_app in H as [H|H]
         | _ ∈ _ :: _ => apply elem_of_cons in H as [H|H]
         | _ ∈ [] => by apply elem_of_nil in H
         end.

(** Two events that differ in their constructor or in their text. *)
Ltac differ H :=
  lazymatch type of H with
  | _ = _ => first [discriminate H | by cbv in H; congruence]
  end.

Lemma requests_app (l1 l2 : list event) : requests (l1 ++ l2) = requests l1 ++ requests l2.
Proof. apply List.filter_app. Qed.

Lemma writes_app (l1 l2 : list event) : writes (l1 ++ l2) = writes l1 ++ writes l2.
Proof. apply flat_map_app. Qed.

Lemma requests_collect (c : collector) (E : env) (w : world) :
  requests (collect_events c E w)
  = match fetch_url c with
    | Some url => [HttpGet url USER_AGENT 15000]
    | None => []
    end.
Proof.
  unfold collect_events, fetch_events.
  destruct c; [destruct (fetched E cdcUrl)| |];
    destruct (write_error E _); reflexivity.
Qed.

Lemma writes_collect (c : collector) (E : env) (w : world) :
  writes (collect_events c E w) = [dataset_path E c].
Proof.
  unfold collect_events, fetch_events.
  destruct c; [destruct (fetched E cdcUrl)| |];
    destruct (write_error E _); reflexivity.
Qed.

Lemma collect_files_other (c : collector) (E : env) (w : world) (path : string) :
  path ≠ dataset_path E c → collect_files c E w !! path = files w !! path.
Proof.
  intros Hne. unfold collect_files, after_refusal.
  destruct (write_error E (dataset_path E c)); [|by rewrite lookup_insert_ne].
  destruct (write_truncates E (dataset_path E c)); [|done].
  by rewrite lookup_delete_ne.
Qed.

Lemma collect_files_written (c : collector) (E : env) (w : world) :
  sink_accepts E c = true →
  collect_files c E w !! dataset_path E c = Some (collect_data c E w).
Proof.
  unfold sink_accepts, collect_files.
  destruct (write_error E (dataset_path E c)); [discriminate|].
  intros _. apply lookup_insert_eq.
Qed.

Lemma summary_not_logged_by_collector (c : collector) (E : env) (w : world) :
  ConsoleLog summary_start_line ∉ collect_events c E w.
Proof.
  unfold collect_events, fetch_events. intros H.
  destruct c; [destruct (fetched E cdcUrl)|destruct (fetched E docUrl)|];
    destruct (write_error E _); split_elem H; differ H.
Qed.

(** *** What a run writes and leaves alone *)

(** Every write call of a run is for the Dataset file of a selected
    collector or, on a full run, for one of the two files of the
    aggregator. *)
Lemma main_spec_writes (E : env) (args : list string) (w : world) (path : string) :
  path ∈ writes (events (main_spec E args w)) →
  (∃ c, selected args c = true ∧ path = dataset_path E c) ∨
  (collectAll args = true ∧ (path = summary_path E ∨ path = website_stats_path E)).
Proof.
  unfold main_spec, step.
  destruct (ensure_result E) as [[]|err]; cbn [events];
    [|intros H; cbn in H; by apply elem_of_nil in H].
  assert (Hstep : ∀ c w',
    path ∈ writes (events (if selected args c then collect_spec c E w'
                           else mkOutcome (Normal JNull) w' [])) →
    ∃ c, selected args c = true ∧ path = dataset_path E c).
  { intros c w'. destruct (selected args c) eqn:Hc; cbn [events collect_spec].
    - rewrite writes_collect. intros ->%list_elem_of_singleton. eauto.
    - intros H. by apply elem_of_nil in H. }
  set (o1 := if selected args CDC then _ else _) in *.
  set (o2 := if selected args Missouri then _ else _) in *.
  set (o3 := if selected args BJS then _ else _) in *.
  assert (Hcollected : path ∈ writes (banner ++ Mkdir (OUTPUT_DIR E)
                         :: events o1 ++ events o2 ++ events o3) →
                       ∃ c, selected args c = true ∧ path = dataset_path E c).
  { rewrite writes_app. change (writes banner) with (@nil string).
    rewrite app_nil_l. change (writes (?a :: ?l)) with (write_path a ++ writes l).
    cbn [write_path app]. rewrite !writes_app. intros H. split_elem H; eauto. }
  destruct (collectAll args).
  - unfold createSummary_spec.
    destruct (write_error E (summary_path E));
      [|destruct (write_error E (website_stats_path E))];
      cbn [result events final]; rewrite !writes_app;
      intros H; apply elem_of_app in H as [H|H]; auto; right;
      (split; [reflexivity|]); cbn in H; split_elem H; auto.
  - cbn [events]. rewrite writes_app. change (writes (completion_lines E)) with (@nil string).
    rewrite app_nil_r. auto.
Qed.

(** A path that is neither the Dataset file of a selected collector nor,
    on a full run, a file of the aggregator holds what it held before. *)
Lemma main_spec_files_other (E : env) (args : list string) (w : world) (path : string) :
  (∀ c, selected args c = true → path ≠ dataset_path E c) →
  (collectAll args = true → path ≠ summary_path E ∧ path ≠ website_stats_path E) →
  files (final (main_spec E args w)) !! path = files w !! path.
Proof.
  intros Hsel Hall. unfold main_spec, step.
  destruct (ensure_result E) as [[]|err]; [|done].
  assert (Hstep : ∀ c w',
    files (final (if selected args c then collect_spec c E w'
                  else mkOutcome (Normal JNull) w' [])) !! path = files w' !! path).
  { intros c w'. destruct (selected args c) eqn:Hc; [|done].
    cbn [final collect_spec files]. apply collect_files_other. auto. }
  set (o1 := if selected args CDC then _ else _) in *.
  set (o2 := if selected args Missouri then _ else _) in *.
  set (o3 := if selected args BJS then _ else _) in *.
  assert (H3 : files (final o3) !! path = files w !! path).
  { subst o1 o2 o3. by rewrite !Hstep. }
  destruct (collectAll args); [|done].
  destruct (Hall eq_refl) as [Hs Hw]. unfold createSummary_spec, after_refusal.
  destruct (write_error E (summary_path E));
    [|destruct (write_error E (website_stats_path E))];
    cbn [result final files];
    try destruct (write_truncates E _);
    by rewrite ?lookup_delete_ne, ?lookup_insert_ne.
Qed.

(** The aggregator starts exactly on a full run whose output directory is
    there. *)
Lemma main_spec_summary_logged (E : env) (args : list string) (w : world) :
  ConsoleLog summary_start_line ∈ events (main_spec E args w) ↔
  ensure_result E = Normal tt ∧ collectAll args = true.
Proof.
  unfold main_spec, step.
  destruct (ensure_result E) as [[]|err]; cbn [events].
  2: { split; [|by intros [? _]]. intros H. unfold banner in H. split_elem H; differ H. }
  assert (Hstep : ∀ c w',
    ConsoleLog summary_start_line ∉
      events (if selected args c then collect_spec c E w'
              else mkOutcome (Normal JNull) w' [])).
  { intros c w'. destruct (selected args c); cbn [events collect_spec].
    - apply summary_not_logged_by_collector.
    - apply not_elem_of_nil. }
  set (o1 := if selected args CDC then _ else _) in *.
  set (o2 := if selected args Missouri then _ else _) in *.
  set (o3 := if selected args BJS then _ else _) in *.
  assert (Hcollected : ConsoleLog summary_start_line ∉
            banner ++ Mkdir (OUTPUT_DIR E) :: events o1 ++ events o2 ++ events o3).
  { intros H. unfold banner in H. split_elem H; try differ H;
      eapply Hstep; eassumption. }
  destruct (collectAll args).
  - split; [done|]. intros _. unfold createSummary_spec.
    destruct (write_error E (summary_path E));
      [|destruct (write_error E (website_stats_path E))];
      cbn [result events]; rewrite !elem_of_app, !elem_of_cons; auto 8.
  - split; [|by intros [_ ?]]. cbn [events]. intros H.
    apply elem_of_app in H as [H|H]; [done|].
    unfold completion_lines in H. split_elem H; differ H.
Qed.

(** A collector starts exactly when it is selected. *)
Lemma main_spec_collector_logged (E : env) (args : list string) (w : world) (c : collector) :
  ensure_result E = Normal tt → selected args c = true →
  ConsoleLog (start_line c) ∈ events (main_spec E args w).
Proof.
  intros Hdir Hc. unfold main_spec, step. rewrite Hdir.
  assert (Hin : ∀ w', ConsoleLog (start_line c) ∈ events (collect_spec c E w')).
  { intros w'. apply elem_of_cons. by left. }
  set (o1 := if selected args CDC then _ else _).
  set (o2 := if selected args Missouri then _ else _).
  set (o3 := if selected args BJS then _ else _).
  assert (Hcollected : ConsoleLog (start_line c) ∈
            banner ++ Mkdir (OUTPUT_DIR E) :: events o1 ++ events o2 ++ events o3).
  { rewrite elem_of_app, elem_of_cons, !elem_of_app.
    subst o1 o2 o3. destruct c; rewrite Hc; auto 6. }
  destruct (collectAll args); [destruct (result _)|]; cbn [events];
    apply elem_of_app; by left.
Qed.

Lemma script_writes (E : env) (argv : list string) (w : world) :
  writes (events (script E argv w)) = writes (events (main E argv w)).
Proof.
  rewrite script_events, writes_app.
  destruct (result (main E argv w)); apply app_nil_r.
Qed.

Lemma script_requests (E : env) (argv : list string) (w : world) :
  requests (events (script E argv w)) = requests (events (main E argv w)).
Proof.
  rewrite script_events, requests_app.
  destruct (result (main E argv w)); apply app_nil_r.
Qed.

Lemma script_console_log (E : env) (argv : list string) (w : world) (line : string) :
  ConsoleLog line ∈ events (script E argv w) ↔ ConsoleLog line ∈ events (main E argv w).
Proof.
  rewrite script_events, elem_of_app. split; [|by left].
  intros [H|H]; [done|].
  destruct (result (main E argv w)); split_elem H; differ H.
Qed.

Lemma requests_createSummary (E : env) (w : world) :
  requests (events (createSummary_spec E w)) = [].
Proof.
  unfold createSummary_spec.
  destruct (write_error E (summary_path E));
    [|destruct (write_error E (website_stats_path E))]; reflexivity.
Qed.




Lemma script_ext (E : env) (node file : string) (args args' : list string) (w : world) :
  main_spec E args w = main_spec E args' w →
  script E (node :: file :: args) w = script E (node :: file :: args') w.
Proof. intros H. unfold script, try_catch. by rewrite !main_eq_spec, H. Qed.





(** C7 (as the code has it).  The CDC and the Missouri collector each send
    one GET request, to their fixed URL, with the user-agent header and a
    timeout of 15000 ms; it is the first thing they do after their opening
    log line.  The BJS collector sends none.  A full run whose output
    directory is there sends these two requests, in this order, and no
    other. *)
Theorem collectors_requests (E : env) (node file : string) (w : world) :
  (∀ c w',
     requests (events (collect c E w'))
     = match fetch_url c with
       | Some url => [HttpGet url USER_AGENT 15000]
       | None => []
       end) ∧
  (∀ c url w', fetch_url c = Some url →
     events (collect c E w') !! 1%nat = Some (HttpGet url USER_AGENT 15000)) ∧
  (output_dir_ready E →
     requests (events (script E [node; file] w))
     = [HttpGet cdcUrl USER_AGENT 15000; HttpGet docUrl USER_AGENT 15000]).
Proof.
  split; [|split].
  - intros c w'. rewrite collect_events_eq. apply requests_collect.
  - intros c url w' Hurl. rewrite collect_events_eq.
    destruct c; injection Hurl as <- || discriminate Hurl; reflexivity.
  - intros Hdir%output_dir_ready_ensure.
    rewrite script_requests, main_eq_spec. unfold main_spec, step. rewrite Hdir.
    change (collectAll []) with true. change (selected [] ?c) with true.
    cbv iota zeta. cbn [events collect_spec].
    set (o4 := createSummary_spec E _).
    pose proof (requests_createSummary E
                  (final (collect_spec BJS E (final (collect_spec Missouri E
                     (final (collect_spec CDC E w))))))) as H4.
    fold o4 in H4.
    destruct (result o4); cbn [events];
      rewrite !requests_app, ?H4, !app_nil_r;
      change (requests (?a :: ?l)) with (requests l);
      by rewrite !requests_app, !requests_collect.
Qed.

(** A full run on the sample platform sends two requests. *)
Lemma collectors_requests_online :
  output_dir_ready Sample.online ∧
  length (requests (events (script Sample.online ["node"; "collect-data.js"]
                              Sample.fresh))) = 2.
Proof.
  assert (H : output_dir_ready Sample.online) by (intros err; discriminate).
  split; [exact H|].
  destruct (collectors_requests Sample.online "node" "collect-data.js" Sample.fresh)
    as (_ & _ & Hrun).
  rewrite (Hrun H). reflexivity.
Defined.

(** C7, counterexample: the BJS collector sends no request, and a full run
    sends two. *)
Lemma bjs_collector_sends_no_request :
  requests (events (collect BJS Sample.online Sample.fresh)) = [] ∧
  length (requests (events (script Sample.online ["node"; "collect-data.js"]
                              Sample.fresh))) ≠ 3.
Proof. split; [vm_compute; reflexivity|]. vm_compute. discriminate. Qed.

(** C8.  A run with the single flag [--cdc] calls for no file but
    [cdc-hiv-aids.json]: every other path, [summary.json] and the three
    other output files among them, holds afterwards what it held before,
    and the aggregator does not start.  With the output directory there and
    the sink taking the file, [cdc-hiv-aids.json] is written once and holds
    the CDC Dataset. *)
Theorem cdc_flag_writes_one_file (E : env) (node file : string) (w : world) :
  (∀ path, path ∈ writes (events (script E [node; file; "--cdc"] w)) →
           path = dataset_path E CDC) ∧
  (∀ path, path ≠ dataset_path E CDC →
           files (final (script E [node; file; "--cdc"] w)) !! path = files w !! path) ∧
  Forall (fun name =>
            files (final (script E [node; file; "--cdc"] w))
              !! path_join (OUTPUT_DIR E) name
            = files w !! path_join (OUTPUT_DIR E) name)
         ["missouri-doc.json"; "bjs-recidivism.json"; "summary.json";
          "website-stats.json"] ∧
  (ConsoleLog summary_start_line ∉ events (script E [node; file; "--cdc"] w)) ∧
  (output_dir_ready E → sink_accepts E CDC = true →
     writes (events (script E [node; file; "--cdc"] w)) = [dataset_path E CDC] ∧
     files (final (script E [node; file; "--cdc"] w)) !! dataset_path E CDC
     = Some (collect_data CDC E w)).
Proof.
  assert (Hother : ∀ path, path ≠ dataset_path E CDC →
            files (final (script E [node; file; "--cdc"] w)) !! path = files w !! path).
  { intros path Hne. rewrite script_final, main_eq_spec.
    apply main_spec_files_other; [|discriminate].
    intros c Hc. destruct c; [done|vm_compute in Hc; discriminate..]. }
  split; [|split; [exact Hother|split; [|split]]].
  - intros path. rewrite script_writes, main_eq_spec.
    intros [(c & Hc & ->)|[Hall _]]%main_spec_writes; [|discriminate].
    destruct c; [done|vm_compute in Hc; discriminate..].
  - repeat constructor; apply Hother; intros H%path_join_inj; discriminate.
  - rewrite script_console_log, main_eq_spec, main_spec_summary_logged.
    intros [_ H]. discriminate.
  - intros Hdir%output_dir_ready_ensure Hsink.
    rewrite script_writes, script_final, main_eq_spec.
    unfold main_spec, step. rewrite Hdir.
    change (collectAll ["--cdc"]) with false.
    change (selected ["--cdc"] CDC) with true.
    change (selected ["--cdc"] Missouri) with false.
    change (selected ["--cdc"] BJS) with false.
    cbv iota zeta. cbn [events final collect_spec files]. split.
    + rewrite !writes_app. change (writes (?a :: ?l)) with (write_path a ++ writes l).
      rewrite !writes_app, writes_collect. reflexivity.
    + by apply collect_files_written.
Qed.

(** Starting from an empty directory, [--cdc] leaves one file in it. *)
Lemma cdc_flag_writes_one_file_online :
  output_dir_ready Sample.online ∧ sink_accepts Sample.online CDC = true ∧
  dom (files (final (script Sample.online ["node"; "collect-data.js"; "--cdc"]
                       Sample.fresh)))
  = {[ "/srv/site/automation/data/cdc-hiv-aids.json" ]}.
Proof.
  assert (H : output_dir_ready Sample.online) by (intros err; discriminate).
  split; [exact H|]. split; [reflexivity|].
  destruct (cdc_flag_writes_one_file Sample.online "node" "collect-data.js" Sample.fresh)
    as (_ & Hother & _ & _ & Hrun).
  destruct (Hrun H eq_refl) as [_ Hfile].
  apply set_eq. intros path. rewrite elem_of_dom, elem_of_singleton. split.
  - intros Hsome.
    destruct (decide (path = dataset_path Sample.online CDC)) as [->|Hne]; [reflexivity|].
    rewrite (Hother path Hne) in Hsome. by destruct Hsome.
  - intros ->. change ("/srv/site/automation/data/cdc-hiv-aids.json")
      with (dataset_path Sample.online CDC). rewrite Hfile. eauto.
Defined.

(** C10.  With the output directory there, the aggregator starts if and
    only if the argument list is empty or contains [--all].  The list
    [--cdc --missouri --bjs] starts the three collectors, which call for
    their three Dataset files (each holding its Dataset when the sink
    takes it), and leaves [summary.json] and [website-stats.json] as they
    were. *)
Theorem aggregator_needs_all (E : env) (node file : string) (args : list string) (w : world) :
  output_dir_ready E →
  (ConsoleLog summary_start_line ∈ events (script E (node :: file :: args) w) ↔
     args = [] ∨ "--all" ∈ args) ∧
  (∀ c, ConsoleLog (start_line c) ∈ events (script E (node :: file :: three_flags) w)) ∧
  writes (events (script E (node :: file :: three_flags) w))
  = [dataset_path E CDC; dataset_path E Missouri; dataset_path E BJS] ∧
  (∀ c, sink_accepts E c = true →
     ∃ now, files (final (script E (node :: file :: three_flags) w)) !! dataset_path E c
            = Some (JObj (dataset c (live E c) now))) ∧
  (ConsoleLog summary_start_line
     ∉ events (script E (node :: file :: three_flags) w)) ∧
  files (final (script E (node :: file :: three_flags) w)) !! summary_path E
  = files w !! summary_path E ∧
  files (final (script E (node :: file :: three_flags) w)) !! website_stats_path E
  = files w !! website_stats_path E.
Proof.
  intros Hdir%output_dir_ready_ensure.
  assert (Hsel : ∀ c, selected three_flags c = true) by (by intros []).
  assert (Hother : ∀ path, (∀ c, path ≠ dataset_path E c) →
            files (final (script E (node :: file :: three_flags) w)) !! path
            = files w !! path).
  { intros path Hne. rewrite script_final, main_eq_spec.
    apply main_spec_files_other; [auto|discriminate]. }
  split; [|split; [|split; [|split; [|split; [|split]]]]].
  - rewrite script_console_log, main_eq_spec, main_spec_summary_logged,
      collectAll_true. tauto.
  - intros c. rewrite script_console_log, main_eq_spec.
    by apply main_spec_collector_logged.
  - rewrite script_writes, main_eq_spec. unfold main_spec, step. rewrite Hdir, !Hsel.
    change (collectAll three_flags) with false.
    cbv iota zeta. cbn [events final collect_spec].
    rewrite !writes_app. change (writes (?a :: ?l)) with (write_path a ++ writes l).
    rewrite !writes_app, !writes_collect. reflexivity.
  - intros c Hsink. rewrite script_final, main_eq_spec.
    unfold main_spec, step. rewrite Hdir, !Hsel.
    change (collectAll three_flags) with false.
    cbv iota zeta. cbn [final collect_spec files].
    destruct c.
    + do 2 (rewrite collect_files_other
              by (intros H%dataset_path_inj; discriminate); cbn [files]).
      rewrite collect_files_written by done. by eexists.
    + rewrite collect_files_other by (intros H%dataset_path_inj; discriminate).
      cbn [files]. rewrite collect_files_written by done. by eexists.
    + rewrite collect_files_written by done. by eexists.
  - rewrite script_console_log, main_eq_spec, main_spec_summary_logged.
    intros [_ H]. discriminate.
  - apply Hother. intros c H. symmetry in H. by apply dataset_path_not_summary in H.
  - apply Hother. intros c H. symmetry in H. by apply dataset_path_not_summary in H.
Qed.

(** Starting from an empty directory, the three flags leave three files in it. *)
Lemma aggregator_needs_all_online :
  output_dir_ready Sample.online ∧
  (ConsoleLog summary_start_line
     ∉ events (script Sample.online ("node" :: "collect-data.js" :: three_flags)
                 Sample.fresh)) ∧
  size (files (final (script Sample.online ("node" :: "collect-data.js" :: three_flags)
                        Sample.fresh))) = 3.
Proof.
  assert (H : output_dir_ready Sample.online) by (intros err; discriminate).
  split; [exact H|]. split; [|vm_compute; reflexivity].
  apply (aggregator_needs_all Sample.online "node" "collect-data.js" three_flags
           Sample.fresh H).
Defined.

(** ** The aggregator *)

(** C5.  [createSummary] makes no use of its three arguments: on the same
    platform and world, any two choices of Datasets (present or [null])
    give the same outcome, value, files and events alike.  Across runs, the
    summaries returned are equal up to [generatedAt], and the DisplayStats
    written to [website-stats.json] are equal up to [lastUpdated]: the
    same six entries every time. *)
Theorem createSummary_ignores_datasets
    (E E' : env) (w w' : world)
    (cdcData missouriData bjsData cdcData' missouriData' bjsData' : jsval) :
  createSummary E cdcData missouriData bjsData w
  = createSummary E cdcData' missouriData' bjsData' w ∧
  (∀ s s',
     result (createSummary E cdcData missouriData bjsData w) = Normal s →
     result (createSummary E' cdcData' missouriData' bjsData' w') = Normal s' →
     erase "generatedAt" s = erase "generatedAt" s' ∧
     ∃ stats stats' entries,
       files (final (createSummary E cdcData missouriData bjsData w))
         !! website_stats_path E = Some stats ∧
       files (final (createSummary E' cdcData' missouriData' bjsData' w'))
         !! website_stats_path E' = Some stats' ∧
       erase "lastUpdated" stats = JObj [("stats", JArr entries)] ∧
       erase "lastUpdated" stats' = JObj [("stats", JArr entries)] ∧
       length entries = 6).
Proof.
  rewrite !createSummary_eq_spec. split; [reflexivity|].
  unfold createSummary_spec.
  destruct (write_error E (summary_path E)); [discriminate|].
  destruct (write_error E (website_stats_path E)); [discriminate|].
  destruct (write_error E' (summary_path E')); [discriminate|].
  destruct (write_error E' (website_stats_path E')); [discriminate|].
  cbn [result final files]. intros s s' [= <-] [= <-].
  split; [reflexivity|]. eexists _, _, _.
  rewrite !lookup_insert_eq. repeat split; reflexivity.
Qed.

(** Two runs of the aggregator, at different times and on different Datasets. *)
Lemma createSummary_ignores_datasets_online :
  ∃ s s',
    result (createSummary Sample.online JNull JNull JNull Sample.fresh) = Normal s ∧
    result (createSummary Sample.offline
              (collect_data CDC Sample.offline Sample.fresh)
              (collect_data Missouri Sample.offline Sample.fresh)
              (collect_data BJS Sample.offline Sample.fresh)
              (mkWorld ∅ 3)) = Normal s' ∧
    s ≠ s' ∧ erase "generatedAt" s = erase "generatedAt" s'.
Proof.
  eexists _, _. split; [vm_compute; reflexivity|]. split; [vm_compute; reflexivity|].
  split; [discriminate|].
  eapply (createSummary_ignores_datasets Sample.online Sample.offline
            Sample.fresh (mkWorld ∅ 3) JNull JNull JNull
            (collect_data CDC Sample.offline Sample.fresh)
            (collect_data Missouri Sample.offline Sample.fresh)
            (collect_data BJS Sample.offline Sample.fresh));
    vm_compute; reflexivity.
Defined.

(** ** Further properties: the output directory and the sink *)

(** X1.  [ensureOutputDir] calls [mkdir] once, on the output directory, and
    changes nothing.  It throws exactly when [mkdir] fails with a code
    other than EEXIST, and then throws that error. *)
Theorem ensureOutputDir_rethrows (E : env) (w : world) :
  (∀ err, result (ensureOutputDir E w) = Throw err ↔
          mkdir_error E (OUTPUT_DIR E) = Some err ∧ code err ≠ "EEXIST") ∧
  final (ensureOutputDir E w) = w ∧
  events (ensureOutputDir E w) = [Mkdir (OUTPUT_DIR E)].
Proof.
  rewrite ensureOutputDir_eq. cbn [result final events].
  split; [|done]. intros err. unfold ensure_result.
  destruct (mkdir_error E (OUTPUT_DIR E)) as [err'|].
  - destruct (String.eqb_spec (code err') "EEXIST") as [Hc|Hc].
    + split; [discriminate|]. intros [[= ->] Hne]. done.
    + split; [intros [= ->]; done|]. by intros [[= ->] _].
  - split; [discriminate|]. by intros [? _].
Qed.



Lemma saveData_success (E : env) (filename : string) (data : jsval) (w : world) :
  write_error E (path_join (OUTPUT_DIR E) filename) = None →
  saveData E filename data w
  = mkOutcome (Normal tt)
      (mkWorld (<[path_join (OUTPUT_DIR E) filename := data]> (files w)) (clock_reads w))
      [WriteFile (path_join (OUTPUT_DIR E) filename) data;
       ConsoleLog ("✓ Saved: " +:+ path_join (OUTPUT_DIR E) filename)].
Proof.
  intros Hw. unfold saveData, fs_writeFile, console_log, emit.
  cbv beta iota zeta delta [mbind M_bind bind]. by rewrite Hw.
Qed.



(** X4.  Writes under different plain file names (no separator in them,
    and neither empty nor a dot name, so that [path.join] only appends
    them) do not interfere: in either order they leave the same files, and
    each file holds its own value. *)
Theorem saveData_commutes (E : env) (name1 name2 : string) (data1 data2 : jsval)
    (w : world) :
  plain_name name1 = true → plain_name name2 = true →
  name1 ≠ name2 →
  write_error E (path_join (OUTPUT_DIR E) name1) = None →
  write_error E (path_join (OUTPUT_DIR E) name2) = None →
  files (final (saveData E name2 data2 (final (saveData E name1 data1 w))))
  = files (final (saveData E name1 data1 (final (saveData E name2 data2 w)))) ∧
  files (final (saveData E name2 data2 (final (saveData E name1 data1 w))))
    !! path_join (OUTPUT_DIR E) name1 = Some data1.
Proof.
  intros _ _ Hne H1 H2. rewrite !saveData_success by done. cbn [final files].
  assert (Hp : path_join (OUTPUT_DIR E) name1 ≠ path_join (OUTPUT_DIR E) name2)
    by (intros H%path_join_inj; done).
  split; [by apply insert_insert_ne|].
  rewrite lookup_insert_ne by done. apply lookup_insert_eq.
Qed.

Lemma saveData_commutes_online :
  files (final (saveData Sample.online "b.json" (JNum 2)
                  (final (saveData Sample.online "a.json" (JNum 1) Sample.fresh))))
  = files (final (saveData Sample.online "a.json" (JNum 1)
                    (final (saveData Sample.online "b.json" (JNum 2) Sample.fresh)))).
Proof.
  apply (saveData_commutes Sample.online "a.json" "b.json" (JNum 1) (JNum 2)
           Sample.fresh); [reflexivity|reflexivity|discriminate|reflexivity|reflexivity].
Defined.

(** ** Further properties: the events of a run *)

Lemma main_eq_spec_argv (E : env) (argv : list string) (w : world) :
  main E argv w = main_spec E (drop 2 argv) w.
Proof.
  destruct argv as [|node [|file args]].
  - apply (main_eq_spec E "" "" [] w).
  - apply (main_eq_spec E "" "" [] w).
  - rewrite main_eq_spec. cbn [drop]. by rewrite drop_0.
Qed.

Lemma createSummary_throws (E : env) (w : world) :
  (∃ s, result (createSummary_spec E w) = Normal s) ↔
  write_error E (summary_path E) = None ∧ write_error E (website_stats_path E) = None.
Proof.
  unfold createSummary_spec.
  destruct (write_error E (summary_path E));
    [|destruct (write_error E (website_stats_path E))]; cbn [result];
    split; try (intros [s H]; discriminate); try (intros [? ?]; discriminate);
    eauto.
Qed.

Lemma uncaught_error_none (E : env) (args : list string) :
  uncaught_error E args = None ↔
  ensure_result E = Normal tt ∧
  (collectAll args = true →
   write_error E (summary_path E) = None ∧ write_error E (website_stats_path E) = None).
Proof.
  unfold uncaught_error.
  destruct (ensure_result E) as [[]|err]; [|split; [discriminate|by intros [? _]]].
  destruct (collectAll args); [|by split].
  destruct (write_error E (summary_path E)).
  - split; [discriminate|]. intros [_ H]. by destruct (H eq_refl).
  - destruct (write_error E (website_stats_path E)).
    + split; [discriminate|]. intros [_ H]. by destruct (H eq_refl).
    + by split.
Qed.

(** Where an event of a run comes from. *)
Lemma main_spec_events_cases (E : env) (args : list string) (w : world) (ev : event) :
  ev ∈ events (main_spec E args w) →
  ev ∈ banner ∨ ev = Mkdir (OUTPUT_DIR E) ∨
  (ensure_result E = Normal tt ∧
   ((∃ c w', selected args c = true ∧ ev ∈ collect_events c E w') ∨
    (collectAll args = true ∧ ∃ w', ev ∈ events (createSummary_spec E w')) ∨
    (uncaught_error E args = None ∧ ev ∈ completion_lines E))).
Proof.
  pose proof (uncaught_error_none E args) as Hnone.
  unfold main_spec, step.
  destruct (ensure_result E) as [[]|err]; cbn [events].
  2: { rewrite elem_of_app, list_elem_of_singleton. tauto. }
  assert (Hstep : ∀ c w',
    ev ∈ events (if selected args c then collect_spec c E w'
                 else mkOutcome (Normal JNull) w' []) →
    ∃ c w', selected args c = true ∧ ev ∈ collect_events c E w').
  { intros c w'. destruct (selected args c) eqn:Hc; cbn [events collect_spec]; [eauto|].
    intros H. by apply elem_of_nil in H. }
  set (o1 := if selected args CDC then _ else _) in *.
  set (o2 := if selected args Missouri then _ else _) in *.
  set (o3 := if selected args BJS then _ else _) in *.
  assert (Hcollected :
    ev ∈ banner ++ Mkdir (OUTPUT_DIR E) :: events o1 ++ events o2 ++ events o3 →
    ev ∈ banner ∨ ev = Mkdir (OUTPUT_DIR E) ∨
    ∃ c w', selected args c = true ∧ ev ∈ collect_events c E w').
  { rewrite elem_of_app, elem_of_cons, !elem_of_app.
    intros [?|[?|[?|[?|?]]]]; eauto. }
  destruct (collectAll args).
  - set (w3 := final o3).
    pose proof (createSummary_throws E w3) as Hthrows.
    destruct (result (createSummary_spec E w3)) as [s|err]; cbn [events];
      intros H; apply elem_of_app in H as [H|H].
    + destruct (Hcollected H) as [?|[?|?]]; auto 6.
    + apply elem_of_app in H as [H|H].
      * right; right. split; [done|]. right; left. eauto.
      * right; right. split; [done|]. right; right. split; [|done].
        apply Hnone. split; [done|]. intros _. apply Hthrows. eauto.
    + destruct (Hcollected H) as [?|[?|?]]; auto 6.
    + right; right. split; [done|]. right; left. eauto.
  - cbn [events]. rewrite elem_of_app. intros [H|H].
    + destruct (Hcollected H) as [?|[?|?]]; auto 6.
    + right; right. split; [done|]. right; right. split; [|done].
      apply Hnone. by split.
Qed.

(** What a run is sure to contain. *)
Lemma main_spec_events_collector (E : env) (args : list string) (w : world) (c : collector) :
  ensure_result E = Normal tt → selected args c = true →
  ∃ w', collect_events c E w' ⊆ events (main_spec E args w).
Proof.
  intros Hdir Hc. unfold main_spec, step. rewrite Hdir.
  set (o1 := if selected args CDC then _ else _).
  set (o2 := if selected args Missouri then _ else _).
  set (o3 := if selected args BJS then _ else _).
  assert (Hcollected : ∃ w', collect_events c E w' ⊆
            banner ++ Mkdir (OUTPUT_DIR E) :: events o1 ++ events o2 ++ events o3).
  { subst o1 o2 o3. destruct c.
    - exists w. rewrite Hc. cbn [events collect_spec]. intros ev Hev.
      rewrite elem_of_app, elem_of_cons, !elem_of_app. auto.
    - eexists. rewrite Hc at 1. cbn [events collect_spec]. intros ev Hev.
      rewrite elem_of_app, elem_of_cons, !elem_of_app. right; right; right; left.
      exact Hev.
    - eexists. rewrite Hc at 1. cbn [events collect_spec]. intros ev Hev.
      rewrite elem_of_app, elem_of_cons, !elem_of_app. right; right; right; right.
      exact Hev. }
  destruct Hcollected as [w' Hsub]. exists w'. intros ev Hev%Hsub.
  destruct (collectAll args); [destruct (result _)|]; cbn [events];
    apply elem_of_app; by left.
Qed.

Lemma main_spec_events_summary (E : env) (args : list string) (w : world) :
  ensure_result E = Normal tt → collectAll args = true →
  ∃ w', events (createSummary_spec E w') ⊆ events (main_spec E args w).
Proof.
  intros Hdir Hall. unfold main_spec. rewrite Hdir, Hall. cbv zeta.
  eexists. intros ev Hev.
  destruct (result (createSummary_spec E _)); cbn [events];
    rewrite !elem_of_app; right; [left|]; exact Hev.
Qed.


Lemma script_eq_spec (E : env) (argv : list string) (w : world) :
  script E argv w
  = match main_spec E (drop 2 argv) w with
    | mkOutcome (Normal u) w1 evs => mkOutcome (Normal u) w1 evs
    | mkOutcome (Throw err) w1 evs =>
        mkOutcome (Normal tt) w1 (evs ++ [ConsoleErrorObject err])
    end.
Proof. unfold script, try_catch. by rewrite main_eq_spec_argv. Qed.

Lemma main_spec_selected_ext (E : env) (args args' : list string) (w : world) :
  collectAll args = collectAll args' →
  (∀ c, selected args c = selected args' c) →
  main_spec E args w = main_spec E args' w.
Proof.
  intros Hall Hc. unfold main_spec, step. by rewrite Hall, !Hc.
Qed.

(** ** Further properties: the arguments *)

(** X5.  [--all] makes every other argument irrelevant: a run whose
    arguments contain it is the run without arguments. *)
Theorem all_flag_absorbs (E : env) (node file : string) (args : list string) (w : world) :
  "--all" ∈ args →
  script E (node :: file :: args) w = script E [node; file] w.
Proof.
  intros Hall. apply script_ext, main_spec_selected_ext.
  - change (collectAll []) with true. apply collectAll_true. by right.
  - intros c. unfold selected. change (collectAll []) with true.
    by rewrite (proj2 (collectAll_true args) (or_intror Hall)).
Qed.

Lemma all_flag_absorbs_sample :
  script Sample.offline ["node"; "collect-data.js"; "--bjs"; "--all"; "--dry-run"]
    Sample.fresh
  = script Sample.offline ["node"; "collect-data.js"] Sample.fresh.
Proof.
  apply (all_flag_absorbs Sample.offline "node" "collect-data.js"
           ["--bjs"; "--all"; "--dry-run"] Sample.fresh).
  apply elem_of_cons. right. apply elem_of_cons. by left.
Defined.



Lemma main_spec_result (E : env) (args : list string) (w : world) :
  result (main_spec E args w)
  = match uncaught_error E args with
    | Some err => Throw err
    | None => Normal tt
    end.
Proof.
  unfold main_spec, uncaught_error, createSummary_spec.
  destruct (ensure_result E) as [[]|err]; [|reflexivity].
  destruct (collectAll args); [|reflexivity]. cbv zeta.
  destruct (write_error E (summary_path E)); [reflexivity|].
  destruct (write_error E (website_stats_path E)); reflexivity.
Qed.

(** Case analysis on what a collector logs. *)
Ltac collector_events H :=
  unfold collect_events, fetch_events in H;
  repeat match type of H with
         | context [fetched ?E ?u] => destruct (fetched E u)
         | context [write_error ?E ?p] => destruct (write_error E p)
         end;
  split_elem H; differ H.

Lemma start_line_of_collector (c c' : collector) (E : env) (w : world) :
  ConsoleLog (start_line c) ∈ collect_events c' E w → c = c'.
Proof.
  intros H. destruct c, c'; try reflexivity; collector_events H.
Qed.

Lemma start_line_not_elsewhere (c : collector) (E : env) (w : world) :
  (ConsoleLog (start_line c) ∉ banner) ∧
  (ConsoleLog (start_line c) ∉ events (createSummary_spec E w)) ∧
  (ConsoleLog (start_line c) ∉ completion_lines E).
Proof.
  split; [|split]; intros H.
  - unfold banner in H. destruct c; split_elem H; differ H.
  - unfold createSummary_spec in H.
    destruct (write_error E (summary_path E));
      [|destruct (write_error E (website_stats_path E))];
      cbn [events] in H; destruct c; split_elem H; differ H.
  - unfold completion_lines in H. destruct c; split_elem H; differ H.
Qed.


Lemma selected_true (args : list string) (c : collector) :
  selected args c = true ↔ args = [] ∨ "--all" ∈ args ∨ flag c ∈ args.
Proof.
  unfold selected. rewrite orb_true_iff, collectAll_true, includes_elem_of. tauto.
Qed.

(** ** Further properties: what a run does *)

(** X7.  A collector starts exactly when the output directory is there
    and the collector is selected, by its flag, by [--all] or by an empty
    argument list: a sibling that failed before it does not stop it. *)
Theorem collector_runs_iff_selected (E : env) (argv : list string) (w : world)
    (c : collector) :
  ConsoleLog (start_line c) ∈ events (script E argv w) ↔
  result (ensureOutputDir E w) = Normal tt ∧
  (drop 2 argv = [] ∨ "--all" ∈ drop 2 argv ∨ flag c ∈ drop 2 argv).
Proof.
  rewrite script_console_log, main_eq_spec_argv, ensureOutputDir_eq.
  cbn [result]. rewrite <- selected_true. split.
  - intros [H|[H|[Hdir [(c' & w' & Hc & H)|[[_ [w' H]]|[_ H]]]]]]%main_spec_events_cases.
    + by apply (start_line_not_elsewhere c E w) in H.
    + destruct c; discriminate.
    + by apply start_line_of_collector in H as ->.
    + by apply (start_line_not_elsewhere c E w') in H.
    + by apply (start_line_not_elsewhere c E w) in H.
  - intros [Hdir Hc]. by apply main_spec_collector_logged.
Qed.


(** X9.  When the output directory cannot be created, the run stops there:
    it sends no request, calls for no file, changes nothing, and its last
    act is to log the error of [mkdir]. *)
Theorem no_directory_no_effect (E : env) (argv : list string) (w : world) (err : js_error) :
  result (ensureOutputDir E w) = Throw err →
  events (script E argv w) = banner ++ [Mkdir (OUTPUT_DIR E); ConsoleErrorObject err] ∧
  final (script E argv w) = w.
Proof.
  rewrite ensureOutputDir_eq, script_eq_spec. cbn [result]. intros Hdir.
  unfold main_spec. rewrite Hdir. by rewrite <- app_assoc.
Qed.

Lemma no_directory_no_effect_sample :
  result (ensureOutputDir Sample.no_directory Sample.fresh) = Throw Sample.EACCES ∧
  length (events (script Sample.no_directory ["node"; "collect-data.js"; "--cdc"]
                    Sample.fresh)) = 6.
Proof.
  assert (H : result (ensureOutputDir Sample.no_directory Sample.fresh)
              = Throw Sample.EACCES) by reflexivity.
  split; [exact H|].
  destruct (no_directory_no_effect Sample.no_directory
              ["node"; "collect-data.js"; "--cdc"] Sample.fresh Sample.EACCES H)
    as [-> _].
  reflexivity.
Defined.

Lemma dataset_path_is_output (E : env) (c : collector) : dataset_path E c ∈ output_paths E.
Proof.
  unfold output_paths. rewrite !elem_of_cons. destruct c; auto.
Qed.

Lemma written_path (evs : list event) (path : string) :
  path ∈ writes evs ↔ ∃ data, WriteFile path data ∈ evs.
Proof.
  unfold writes. rewrite list_elem_of_In, in_flat_map. split.
  - intros (ev & Hev%list_elem_of_In & Hpath). destruct ev; try done.
    apply list_elem_of_In, list_elem_of_singleton in Hpath as ->. eauto.
  - intros [data H]. exists (WriteFile path data).
    split; [by apply list_elem_of_In|]. by left.
Qed.

(** X11.  Whatever the arguments and the platform, a run calls for no file
    but the five output files and changes no other path; the Dataset file
    of a collector that is not selected is neither called for nor
    changed. *)
Theorem run_touches_only_its_files (E : env) (argv : list string) (w : world) :
  (∀ path, path ∈ writes (events (script E argv w)) → path ∈ output_paths E) ∧
  (∀ path, path ∉ output_paths E →
           files (final (script E argv w)) !! path = files w !! path) ∧
  (∀ c, selected (drop 2 argv) c = false →
        (dataset_path E c ∉ writes (events (script E argv w))) ∧
        files (final (script E argv w)) !! dataset_path E c
        = files w !! dataset_path E c).
Proof.
  rewrite script_writes, script_final, main_eq_spec_argv. split; [|split].
  - intros path [(c & _ & ->)|[_ [->| ->]]]%main_spec_writes.
    + apply dataset_path_is_output.
    + unfold output_paths. rewrite !elem_of_cons. auto.
    + unfold output_paths. rewrite !elem_of_cons. auto 6.
  - intros path Hout. apply main_spec_files_other.
    + intros c _ ->. apply Hout, dataset_path_is_output.
    + intros _. unfold output_paths in Hout. rewrite !elem_of_cons in Hout.
      split; intros ->; apply Hout; auto 6.
  - intros c Hc. split.
    + intros [(c' & Hc' & Heq)|[_ [Heq|Heq]]]%main_spec_writes.
      * apply dataset_path_inj in Heq as <-. congruence.
      * by apply dataset_path_not_summary in Heq.
      * by apply dataset_path_not_summary in Heq.
    + apply main_spec_files_other.
      * intros c' Hc' Heq. apply dataset_path_inj in Heq as <-. congruence.
      * intros _. split; apply dataset_path_not_summary.
Qed.

(** X12.  What a collector returns is what it saved: it returns [null]
    exactly when the sink refused the file, and otherwise the file holds
    the very value returned. *)
Theorem returned_dataset_is_saved (c : collector) (E : env) (w : world) :
  (result (collect c E w) = Normal JNull ↔
   write_error E (dataset_path E c) ≠ None) ∧
  (∀ v, result (collect c E w) = Normal v → v ≠ JNull →
        files (final (collect c E w)) !! dataset_path E c = Some v).
Proof.
  rewrite collect_result, collect_final. cbn [files].
  unfold collect_returns, collect_files, collect_data.
  destruct (write_error E (dataset_path E c)) as [err|]; split.
  - by split.
  - intros v [= <-]. done.
  - split; [discriminate|]. intros H. by destruct H.
  - intros v [= <-] _. apply lookup_insert_eq.
Qed.

Lemma returned_dataset_is_saved_online :
  ∃ v, result (collect Missouri Sample.online Sample.fresh) = Normal v ∧ v ≠ JNull ∧
       files (final (collect Missouri Sample.online Sample.fresh))
         !! "/srv/site/automation/data/missouri-doc.json" = Some v.
Proof.
  eexists. split; [vm_compute; reflexivity|]. split; [discriminate|].
  apply (returned_dataset_is_saved Missouri Sample.online Sample.fresh);
    [vm_compute; reflexivity|discriminate].
Defined.

(** X13.  The two writes of the aggregator are not atomic.  When
    [summary.json] is refused, the aggregator throws that error and
    [website-stats.json] is not even called for, so that file is as it
    was.  When [summary.json] is taken and [website-stats.json] is
    refused, the aggregator throws that error and leaves the new summary
    beside a statistics file that is the old one or, when the refusal
    came after the opening, is lost. *)
Theorem createSummary_partial_failure (E : env) (cdcData missouriData bjsData : jsval)
    (w : world) (err : js_error) :
  (write_error E (summary_path E) = Some err →
     result (createSummary E cdcData missouriData bjsData w) = Throw err ∧
     writes (events (createSummary E cdcData missouriData bjsData w)) = [summary_path E] ∧
     files (final (createSummary E cdcData missouriData bjsData w))
       !! website_stats_path E
     = files w !! website_stats_path E) ∧
  (write_error E (summary_path E) = None →
   write_error E (website_stats_path E) = Some err →
     result (createSummary E cdcData missouriData bjsData w) = Throw err ∧
     files (final (createSummary E cdcData missouriData bjsData w)) !! summary_path E
     = Some (summary_value (date_now E (clock_reads w))) ∧
     files (final (createSummary E cdcData missouriData bjsData w))
       !! website_stats_path E
     = if write_truncates E (website_stats_path E)
       then None
       else files w !! website_stats_path E).
Proof.
  assert (Hne : summary_path E ≠ website_stats_path E)
    by (intros H%path_join_inj; discriminate).
  rewrite createSummary_eq_spec. unfold createSummary_spec, after_refusal. split.
  - intros ->. cbn [result events final files]. split; [done|]. split; [done|].
    destruct (write_truncates E (summary_path E)); [|done].
    by apply lookup_delete_ne.
  - intros -> ->. cbn [result final files]. split; [done|].
    destruct (write_truncates E (website_stats_path E)).
    + rewrite lookup_delete_ne, lookup_insert_eq, lookup_delete_eq by done. done.
    + rewrite lookup_insert_eq, lookup_insert_ne by done. done.
Qed.

Lemma createSummary_partial_failure_stats_locked :
  result (createSummary stats_locked JNull JNull JNull Sample.fresh) = Throw Sample.EACCES ∧
  dom (files (final (createSummary stats_locked JNull JNull JNull Sample.fresh)))
  = {[ "/srv/site/automation/data/summary.json" ]}.
Proof.
  destruct (createSummary_partial_failure stats_locked JNull JNull JNull Sample.fresh
              Sample.EACCES) as [_ Hpartial].
  destruct (Hpartial eq_refl eq_refl) as (Hthrow & _ & _).
  split; [exact Hthrow|]. vm_compute. reflexivity.
Defined.

(** ** Further properties: the files after a run *)

Lemma written_app (E : env) (l1 l2 : list event) :
  written E (l1 ++ l2) = written E l1 ++ written E l2.
Proof. apply flat_map_app. Qed.

Lemma script_written (E : env) (argv : list string) (w : world) :
  written E (events (script E argv w)) = written E (events (main E argv w)).
Proof.
  rewrite script_events, written_app.
  destruct (result (main E argv w)); apply app_nil_r.
Qed.

Lemma changes_app (E : env) (l1 l2 : list event) :
  changes E (l1 ++ l2) = changes E l1 ++ changes E l2.
Proof. apply flat_map_app. Qed.

Lemma apply_changes_app (l1 l2 : list (string * option jsval)) (m : gmap string jsval) :
  apply_changes (l1 ++ l2) m = apply_changes l2 (apply_changes l1 m).
Proof. apply foldl_app. Qed.

Lemma apply_change_lookup (m : gmap string jsval) (kv : string * option jsval) (k : string) :
  apply_change m kv !! k = if decide (kv.1 = k) then kv.2 else m !! k.
Proof.
  destruct kv as [p [data|]]; unfold apply_change; cbn [fst snd]; case_decide.
  - subst. apply lookup_insert_eq.
  - by apply lookup_insert_ne.
  - subst. apply lookup_delete_eq.
  - by apply lookup_delete_ne.
Qed.

(** At a given path, a sequence of changes either keeps what was there or
    leaves a content of its own. *)
Lemma apply_changes_lookup (l : list (string * option jsval)) (k : string) :
  (∀ m, apply_changes l m !! k = m !! k) ∨
  (∃ content, ∀ m, apply_changes l m !! k = content).
Proof.
  induction l as [|kv l IH].
  - by left.
  - destruct IH as [IH|[content IH]].
    + destruct (decide (kv.1 = k)) as [Heq|Hne].
      * right. exists kv.2. intros m.
        change (apply_changes (kv :: l) m) with (apply_changes l (apply_change m kv)).
        rewrite IH, apply_change_lookup. by rewrite decide_True.
      * left. intros m.
        change (apply_changes (kv :: l) m) with (apply_changes l (apply_change m kv)).
        rewrite IH, apply_change_lookup. by rewrite decide_False.
    + right. exists content. intros m. apply IH.
Qed.

Lemma apply_changes_idemp (l : list (string * option jsval)) (m : gmap string jsval) :
  apply_changes l (apply_changes l m) = apply_changes l m.
Proof.
  apply map_eq. intros k.
  destruct (apply_changes_lookup l k) as [H|[content H]]; by rewrite !H.
Qed.

Lemma apply_changes_fmap (f : jsval → jsval) (l : list (string * option jsval))
    (m : gmap string jsval) :
  f <$> apply_changes l m = apply_changes (map_change f <$> l) (f <$> m).
Proof.
  revert m. induction l as [|[p [data|]] l IH]; intros m; [done|..].
  - change (apply_changes ((p, Some data) :: l) m)
      with (apply_changes l (<[p:=data]> m)).
    rewrite IH, fmap_insert. reflexivity.
  - change (apply_changes ((p, None) :: l) m) with (apply_changes l (delete p m)).
    rewrite IH, fmap_delete. reflexivity.
Qed.

Lemma changes_collect (c : collector) (E : env) (w : world) :
  changes E (collect_events c E w)
  = match write_error E (dataset_path E c) with
    | None => [(dataset_path E c, Some (collect_data c E w))]
    | Some _ =>
        if write_truncates E (dataset_path E c) then [(dataset_path E c, None)] else []
    end.
Proof.
  unfold collect_events, fetch_events.
  destruct c; [destruct (fetched E cdcUrl)| |]; cbn;
    destruct (write_error E _); try destruct (write_truncates E _); reflexivity.
Qed.

Lemma changes_createSummary (E : env) (w : world) :
  changes E (events (createSummary_spec E w))
  = match write_error E (summary_path E) with
    | Some _ =>
        if write_truncates E (summary_path E) then [(summary_path E, None)] else []
    | None =>
        (summary_path E, Some (summary_value (date_now E (clock_reads w)))) ::
        match write_error E (website_stats_path E) with
        | Some _ =>
            if write_truncates E (website_stats_path E)
            then [(website_stats_path E, None)] else []
        | None => [(website_stats_path E,
                    Some (websiteStats_value (date_now E (S (clock_reads w)))))]
        end
    end.
Proof.
  unfold createSummary_spec.
  destruct (write_error E (summary_path E)) eqn:Hs;
    [|destruct (write_error E (website_stats_path E)) eqn:Hw];
    cbn; rewrite ?Hs, ?Hw; try destruct (write_truncates E _); reflexivity.
Qed.

Lemma step_files (c : collector) (E : env) (args : list string) (w : world) :
  files (final (step c E args w))
  = apply_changes (changes E (events (step c E args w))) (files w).
Proof.
  unfold step. destruct (selected args c); [|reflexivity].
  cbn [final events collect_spec files]. rewrite changes_collect.
  unfold collect_files, after_refusal.
  destruct (write_error E (dataset_path E c)); [|reflexivity].
  by destruct (write_truncates E (dataset_path E c)).
Qed.

Lemma createSummary_files (E : env) (w : world) :
  files (final (createSummary_spec E w))
  = apply_changes (changes E (events (createSummary_spec E w))) (files w).
Proof.
  rewrite changes_createSummary. unfold createSummary_spec, after_refusal.
  destruct (write_error E (summary_path E));
    [|destruct (write_error E (website_stats_path E))];
    try destruct (write_truncates E _); reflexivity.
Qed.

(** The changes of a run, collector by collector. *)
Lemma changes_main_spec (E : env) (args : list string) (w : world) :
  changes E (events (main_spec E args w))
  = match ensure_result E with
    | Throw _ => []
    | Normal _ =>
        let o1 := step CDC E args w in
        let o2 := step Missouri E args (final o1) in
        let o3 := step BJS E args (final o2) in
        changes E (events o1) ++ changes E (events o2) ++ changes E (events o3) ++
        (if collectAll args
         then changes E (events (createSummary_spec E (final o3)))
         else [])
    end.
Proof.
  unfold main_spec. destruct (ensure_result E) as [[]|err]; [|reflexivity].
  cbv zeta.
  set (o1 := step CDC E args w).
  set (o2 := step Missouri E args (final o1)).
  set (o3 := step BJS E args (final o2)).
  assert (Hcollected :
    changes E (banner ++ Mkdir (OUTPUT_DIR E) :: events o1 ++ events o2 ++ events o3)
    = changes E (events o1) ++ changes E (events o2) ++ changes E (events o3)).
  { rewrite changes_app. change (changes E banner) with (@nil (string * option jsval)).
    change (changes E (?a :: ?l)) with (change_of E a ++ changes E l).
    cbn [change_of app]. by rewrite !changes_app. }
  destruct (collectAll args).
  - destruct (result (createSummary_spec E (final o3))); cbn [events];
      rewrite changes_app, Hcollected, ?changes_app, <- ?app_assoc;
      change (changes E (completion_lines E)) with (@nil (string * option jsval));
      by rewrite ?app_nil_r.
  - cbn [events]. rewrite changes_app, Hcollected, <- !app_assoc.
    change (changes E (completion_lines E)) with (@nil (string * option jsval)).
    reflexivity.
Qed.

Lemma main_spec_files (E : env) (args : list string) (w : world) :
  files (final (main_spec E args w))
  = apply_changes (changes E (events (main_spec E args w))) (files w).
Proof.
  rewrite changes_main_spec. unfold main_spec.
  destruct (ensure_result E) as [[]|err]; [|reflexivity]. cbv zeta.
  rewrite !apply_changes_app, <- !step_files.
  destruct (collectAll args).
  - rewrite <- createSummary_files.
    by destruct (result (createSummary_spec E _)).
  - reflexivity.
Qed.




Lemma strip_dataset (c : collector) (fetched_page : bool) (now now' : string) :
  strip_timestamps (JObj (dataset c fetched_page now))
  = strip_timestamps (JObj (dataset c fetched_page now')).
Proof. destruct c, fetched_page; reflexivity. Qed.

Lemma stripped_changes_step (c : collector) (E : env) (args : list string) (w w' : world) :
  map_change strip_timestamps <$> changes E (events (step c E args w))
  = map_change strip_timestamps <$> changes E (events (step c E args w')).
Proof.
  unfold step. destruct (selected args c); [|reflexivity].
  cbn [events collect_spec]. rewrite !changes_collect.
  destruct (write_error E (dataset_path E c)); [reflexivity|].
  unfold collect_data, map_change.
  change (?f <$> [?x]) with [f x]. cbn [fst snd option_map].
  by rewrite (strip_dataset c _ _ (date_now E (clock_reads w'))).
Qed.

Lemma stripped_changes_summary (E : env) (w w' : world) :
  map_change strip_timestamps <$> changes E (events (createSummary_spec E w))
  = map_change strip_timestamps <$> changes E (events (createSummary_spec E w')).
Proof.
  rewrite !changes_createSummary.
  destruct (write_error E (summary_path E)); [reflexivity|].
  destruct (write_error E (website_stats_path E)); reflexivity.
Qed.

Lemma stripped_changes_main_spec (E : env) (args : list string) (w w' : world) :
  map_change strip_timestamps <$> changes E (events (main_spec E args w))
  = map_change strip_timestamps <$> changes E (events (main_spec E args w')).
Proof.
  rewrite !changes_main_spec.
  destruct (ensure_result E) as [[]|err]; [|reflexivity]. cbv zeta.
  rewrite !fmap_app.
  rewrite (stripped_changes_step CDC E args w w').
  rewrite (stripped_changes_step Missouri E args _ (final (step CDC E args w'))).
  rewrite (stripped_changes_step BJS E args _
             (final (step Missouri E args (final (step CDC E args w'))))).
  destruct (collectAll args); [|reflexivity].
  by rewrite (stripped_changes_summary E _
                (final (step BJS E args (final (step Missouri E args
                   (final (step CDC E args w'))))))).
Qed.

(** X15.  Running the script again with the same arguments changes
    nothing but timestamps: once [lastUpdated] and [generatedAt] are
    removed, the files after the second run are the files after the
    first. *)
Theorem rerun_changes_only_timestamps (E : env) (argv : list string) (w : world) :
  strip_timestamps <$> files (final (script E argv (final (script E argv w))))
  = strip_timestamps <$> files (final (script E argv w)).
Proof.
  rewrite !script_final, !main_eq_spec_argv.
  rewrite (main_spec_files E _ (final (main_spec E (drop 2 argv) w))).
  rewrite apply_changes_fmap.
  rewrite (stripped_changes_main_spec E _ _ w).
  rewrite main_spec_files, apply_changes_fmap.
  apply apply_changes_idemp.
Qed.

Lemma rerun_changes_only_timestamps_online :
  files (final (script Sample.online ["node"; "collect-data.js"]
                  (final (script Sample.online ["node"; "collect-data.js"] Sample.fresh))))
  ≠ files (final (script Sample.online ["node"; "collect-data.js"] Sample.fresh)) ∧
  strip_timestamps <$>
    files (final (script Sample.online ["node"; "collect-data.js"]
                    (final (script Sample.online ["node"; "collect-data.js"] Sample.fresh))))
  = strip_timestamps <$>
      files (final (script Sample.online ["node"; "collect-data.js"] Sample.fresh)).
Proof.
  split.
  - intros H.
    apply (f_equal (fun m => m !! "/srv/site/automation/data/summary.json")) in H.
    vm_compute in H. discriminate.
  - apply (rerun_changes_only_timestamps Sample.online ["node"; "collect-data.js"]
             Sample.fresh).
Defined.

(** ** Further properties: the confirmation lines *)

Lemma written_elem (E : env) (evs : list event) (path : string) (data : jsval) :
  (path, data) ∈ written E evs ↔ WriteFile path data ∈ evs ∧ write_error E path = None.
Proof.
  unfold written. rewrite list_elem_of_In, in_flat_map. split.
  - intros (ev & Hev%list_elem_of_In & Hin). destruct ev; try done.
    cbn in Hin. destruct (write_error E path0) eqn:Hw; [done|].
    destruct Hin as [[= -> ->]|[]]. done.
  - intros [Hev Hw]. exists (WriteFile path data).
    split; [by apply list_elem_of_In|]. cbn. rewrite Hw. by left.
Qed.

(** A confirmation line names the path it confirms. *)
Ltac saved_line_cases H :=
  split_elem H;
  first [ differ H
        | unfold saved_line in H; injection H as H; apply append_inj in H;
          subst; auto ].

Lemma saved_in_collect (c : collector) (E : env) (w : world) (path : string) :
  ConsoleLog (saved_line path) ∈ collect_events c E w ↔
  path = dataset_path E c ∧ write_error E (dataset_path E c) = None.
Proof.
  split.
  - intros H. unfold collect_events, fetch_events in H.
    destruct (write_error E (dataset_path E c)) eqn:Hw;
      destruct c; try destruct (fetched E cdcUrl); try destruct (fetched E docUrl);
      saved_line_cases H.
  - intros [-> Hw]. unfold collect_events. rewrite Hw.
    apply elem_of_cons. right. apply elem_of_app. right.
    apply elem_of_cons. right. apply elem_of_cons. by left.
Qed.

Lemma saved_in_summary (E : env) (w : world) (path : string) :
  ConsoleLog (saved_line path) ∈ events (createSummary_spec E w) ↔
  write_error E (summary_path E) = None ∧
  (path = summary_path E ∨
   path = website_stats_path E ∧ write_error E (website_stats_path E) = None).
Proof.
  unfold createSummary_spec.
  destruct (write_error E (summary_path E)) eqn:Hs;
    [|destruct (write_error E (website_stats_path E)) eqn:Hw]; cbn [events]; split.
  - intros H. saved_line_cases H.
  - by intros [? _].
  - intros H. saved_line_cases H.
  - intros [_ [->|[_ ?]]]; [|done]. rewrite !elem_of_app, !elem_of_cons. auto.
  - intros H. saved_line_cases H.
  - intros [_ [->|[-> _]]]; rewrite !elem_of_app, !elem_of_cons; auto 6.
Qed.

Lemma write_in_summary (E : env) (w : world) (path : string) :
  (∃ data, WriteFile path data ∈ events (createSummary_spec E w)) ↔
  path = summary_path E ∨
  path = website_stats_path E ∧ write_error E (summary_path E) = None.
Proof.
  unfold createSummary_spec.
  destruct (write_error E (summary_path E)) eqn:Hs;
    [|destruct (write_error E (website_stats_path E)) eqn:Hw]; cbn [events]; split.
  - intros [data H]. split_elem H; try differ H. injection H as -> _. by left.
  - intros [->|[_ ?]]; [|done]. eexists. rewrite !elem_of_cons. right; left. reflexivity.
  - intros [data H]. split_elem H; try differ H; injection H as -> _; auto.
  - intros [->|[-> _]]; eexists; rewrite !elem_of_app, !elem_of_cons.
    + left; right; left. reflexivity.
    + right; right; left. reflexivity.
  - intros [data H]. split_elem H; try differ H; injection H as -> _; auto.
  - intros [->|[-> _]]; eexists; rewrite !elem_of_app, !elem_of_cons.
    + left; left; right; left. reflexivity.
    + left; right; right; left. reflexivity.
Qed.

Lemma write_in_collect (c : collector) (E : env) (w : world) :
  WriteFile (dataset_path E c) (collect_data c E w) ∈ collect_events c E w.
Proof.
  unfold collect_events. apply elem_of_cons. right. apply elem_of_app. right.
  apply elem_of_cons. by left.
Qed.

(** X16.  In any run, the line "Saved: path" is logged exactly for the
    paths whose write the file system accepted: a refused write is never
    confirmed, and an accepted one always is. *)
Theorem saved_line_iff_accepted (E : env) (argv : list string) (w : world) (path : string) :
  ConsoleLog (saved_line path) ∈ events (script E argv w) ↔
  ∃ data, (path, data) ∈ written E (events (script E argv w)).
Proof.
  rewrite script_console_log, script_written, main_eq_spec_argv.
  set (args := drop 2 argv). split.
  - intros [H|[H|[Hdir [(c & w' & Hc & H)|[[Hall [w' H]]|[_ H]]]]]]%main_spec_events_cases.
    + unfold banner in H. saved_line_cases H.
    + discriminate.
    + apply saved_in_collect in H as [-> Hw].
      destruct (main_spec_events_collector E args w c Hdir Hc) as [w'' Hsub].
      exists (collect_data c E w''). apply written_elem.
      split; [apply Hsub, write_in_collect|done].
    + apply saved_in_summary in H as [Hs Hpath].
      destruct (main_spec_events_summary E args w Hdir Hall) as [w'' Hsub].
      assert (Hcall : ∃ data, WriteFile path data ∈ events (createSummary_spec E w'')).
      { apply write_in_summary. destruct Hpath as [->|[-> _]]; auto. }
      destruct Hcall as [data Hdata]. exists data. apply written_elem.
      split; [by apply Hsub|]. by destruct Hpath as [->|[-> ?]].
    + unfold completion_lines in H. saved_line_cases H.
  - intros [data [H Hw]%written_elem].
    apply main_spec_events_cases in H
      as [H|[H|[Hdir [(c & w' & Hc & H)|[[Hall [w' H]]|[_ H]]]]]].
    + unfold banner in H. split_elem H; differ H.
    + discriminate.
    + apply collect_writes_its_data in H as [-> _].
      destruct (main_spec_events_collector E args w c Hdir Hc) as [w'' Hsub].
      by apply Hsub, saved_in_collect.
    + assert (Hpath : path = summary_path E ∨
                      path = website_stats_path E ∧ write_error E (summary_path E) = None)
        by (apply (write_in_summary E w'); eauto).
      destruct (main_spec_events_summary E args w Hdir Hall) as [w'' Hsub].
      apply Hsub, saved_in_summary.
      destruct Hpath as [->|[-> Hs]]; auto.
    + unfold completion_lines in H. split_elem H; differ H.
Qed.

(** ** Further properties: the order of the effects *)

Lemma effects_app (l1 l2 : list event) : effects (l1 ++ l2) = effects l1 ++ effects l2.
Proof. apply flat_map_app. Qed.

Lemma effects_collect (c : collector) (E : env) (w : world) :
  effects (collect_events c E w)
  = match fetch_url c with
    | Some url => [Fetch url; Save (dataset_path E c)]
    | None => [Save (dataset_path E c)]
    end.
Proof.
  unfold collect_events, fetch_events.
  destruct c; [destruct (fetched E cdcUrl)| |];
    destruct (write_error E _); reflexivity.
Qed.

Lemma effects_createSummary (E : env) (w : world) :
  effects (events (createSummary_spec E w))
  = Save (summary_path E) ::
    match write_error E (summary_path E) with
    | None => [Save (website_stats_path E)]
    | Some _ => []
    end.
Proof.
  unfold createSummary_spec.
  destruct (write_error E (summary_path E));
    [|destruct (write_error E (website_stats_path E))]; reflexivity.
Qed.

Lemma effects_step (c : collector) (E : env) (args : list string) (w : world) :
  effects (events (step c E args w))
  = if selected args c
    then match fetch_url c with
         | Some url => [Fetch url; Save (dataset_path E c)]
         | None => [Save (dataset_path E c)]
         end
    else [].
Proof.
  unfold step. destruct (selected args c); [|reflexivity].
  cbn [events collect_spec]. apply effects_collect.
Qed.

(** X10.  The script works strictly in sequence.  Whatever the arguments
    and the platform, its effects on the outside are, in this order: the
    [mkdir]; then, unless that failed, for each selected collector in the
    order CDC, Missouri, BJS its request (BJS has none) followed by its
    write; then, on a full run, the write of [summary.json] and, if that
    one was accepted, the write of [website-stats.json]. *)
Theorem effects_in_order (E : env) (argv : list string) (w : world) :
  effects (events (script E argv w))
  = MakeDir (OUTPUT_DIR E) ::
    match result (ensureOutputDir E w) with
    | Throw _ => []
    | Normal _ =>
        (if selected (drop 2 argv) CDC
         then [Fetch cdcUrl; Save (dataset_path E CDC)] else []) ++
        (if selected (drop 2 argv) Missouri
         then [Fetch docUrl; Save (dataset_path E Missouri)] else []) ++
        (if selected (drop 2 argv) BJS
         then [Save (dataset_path E BJS)] else []) ++
        (if collectAll (drop 2 argv)
         then Save (summary_path E) ::
              match write_error E (summary_path E) with
              | None => [Save (website_stats_path E)]
              | Some _ => []
              end
         else [])
    end.
Proof.
  rewrite script_events, effects_app, main_eq_spec_argv, main_spec_result,
    ensureOutputDir_eq.
  cbn [result]. set (args := drop 2 argv).
  assert (Htail : effects
            match match uncaught_error E args with
                  | Some err => Throw err
                  | None => Normal tt
                  end with
            | Normal _ => []
            | Throw err => [ConsoleErrorObject err]
            end = []) by (by destruct (uncaught_error E args)).
  rewrite Htail, app_nil_r. clear Htail.
  unfold main_spec. destruct (ensure_result E) as [[]|err]; [|reflexivity].
  cbv zeta.
  pose proof (effects_step CDC E args w) as H1.
  pose proof (effects_step Missouri E args (final (step CDC E args w))) as H2.
  pose proof (effects_step BJS E args
                (final (step Missouri E args (final (step CDC E args w))))) as H3.
  cbn [fetch_url] in H1, H2, H3.
  set (o1 := step CDC E args w) in *.
  set (o2 := step Missouri E args (final o1)) in *.
  set (o3 := step BJS E args (final o2)) in *.
  assert (Hcollected :
    effects (banner ++ Mkdir (OUTPUT_DIR E) :: events o1 ++ events o2 ++ events o3)
    = MakeDir (OUTPUT_DIR E) :: effects (events o1) ++ effects (events o2)
        ++ effects (events o3)).
  { rewrite effects_app. change (effects banner) with (@nil effect).
    change (effects (?a :: ?l)) with (effect_of a ++ effects l).
    cbn [effect_of app]. by rewrite !effects_app. }
  destruct (collectAll args).
  - pose proof (effects_createSummary E (final o3)) as H4.
    destruct (result (createSummary_spec E (final o3))); cbn [events];
      rewrite effects_app, Hcollected, ?effects_app, H4, H1, H2, H3;
      change (effects (completion_lines E)) with (@nil effect);
      rewrite ?app_nil_r; cbn [app]; rewrite <- ?app_assoc; reflexivity.
  - cbn [events]. rewrite effects_app, Hcollected, H1, H2, H3.
    change (effects (completion_lines E)) with (@nil effect).
    rewrite ?app_nil_r. cbn [app]. rewrite <- ?app_assoc. reflexivity.
Qed.

(** ** Further properties: the collectors *)

(** X17.  A collector with a page to fetch logs its "Could not fetch"
    warning exactly when its inner [try] block fails: when the request is
    rejected, and also when the page arrived and [cheerio.load] threw. *)
Theorem fetch_warning_iff_inner_try_fails (c : collector) (E : env) (w : world)
    (url : string) :
  fetch_url c = Some url →
  (fetch_warning c ⊆ events (collect c E w) ↔
   (∃ err, net_get E url = inl err) ∨
   (∃ body err, net_get E url = inr body ∧ html_parse E body = inl err)).
Proof.
  intros Hurl. rewrite collect_events_eq.
  unfold collect_events, fetch_events, fetched.
  destruct c; try discriminate; injection Hurl as <-; cbn [fetch_warning];
    (destruct (net_get E _) as [e|body] eqn:Hn;
       [|destruct (html_parse E body) as [e|doc] eqn:Hp]); split;
    try (intros _; eauto; fail);
    try (intros _ ev ->%list_elem_of_singleton;
         rewrite ?elem_of_cons, ?elem_of_app, ?elem_of_cons; auto 8; fail);
    try (intros [[err H]|(body' & err & H1 & H2)]; congruence).
  - intros H. specialize (H _ (proj2 (list_elem_of_singleton _ _) eq_refl)).
    destruct (write_error E (dataset_path E CDC)); split_elem H; differ H.
  - intros H. specialize (H _ (proj2 (list_elem_of_singleton _ _) eq_refl)).
    destruct (write_error E (dataset_path E Missouri)); split_elem H; differ H.
Qed.

Lemma fetch_warning_iff_inner_try_fails_garbled :
  net_get garbled cdcUrl = inr "<html" ∧
  fetch_warning CDC ⊆ events (collect CDC garbled Sample.fresh).
Proof.
  split; [reflexivity|].
  apply (fetch_warning_iff_inner_try_fails CDC garbled Sample.fresh cdcUrl eq_refl).
  right. by eexists _, _.
Defined.

(** X18.  No error escapes a collector: whatever the network, cheerio and
    the file system do, it completes normally, with [null] or with an
    object that has a non-empty [statistics] array. *)
Theorem collectors_never_throw (c : collector) (E : env) (w : world) :
  ∃ v, result (collect c E w) = Normal v ∧
       (v = JNull ∨ ∃ d, v = JObj d ∧ statistics_array d ≠ []).
Proof.
  rewrite collect_result. eexists. split; [reflexivity|].
  unfold collect_returns, collect_data.
  destruct (write_error E (dataset_path E c)); [by left|]. right.
  eexists. split; [reflexivity|]. by destruct c, (live E _).
Qed.
